(** * Dynamic SQL Assistant: column sanitiser, schema loader and query repair

    A shallow embedding of [utils/database.py]:
    [clean_column_name], [create_database_from_csv] and [execute_query],
    together with the properties of the query-repair layer.

    Python strings are sequences of Unicode code points.  The three
    character-level primitives the program calls ([str.isalnum],
    [str.isdigit], [str.lower]) are table driven in the interpreter; their
    behaviour on ASCII is written out below, their behaviour above U+007F is
    read from a [UnicodeData] record.  The SQL engine behind
    [pd.read_sql_query] and [DataFrame.to_sql] is an [Engine] record. *)

From Stdlib Require Import List NArith ZArith Bool Lia String Ascii.
Import ListNotations.

(** ** Python strings *)

Module Str.

(** A [str] is the list of its code points. *)
Definition str := list N.

(** An ASCII literal of the source as a [str]. *)
Definition lit (s : string) : str :=
  map N_of_ascii (list_ascii_of_string s).

Definition dquote : N := 34%N.
Definition backtick : N := 96%N.
Definition space : N := 32%N.
Definition underscore : N := 95%N.

Fixpoint starts_with (p s : str) : bool :=
  match p, s with
  | [], _ => true
  | _ :: _, [] => false
  | a :: p', b :: s' => (a =? b)%N && starts_with p' s'
  end.

(** [sub in s] *)
Fixpoint contains (sub s : str) : bool :=
  starts_with sub s ||
  match s with
  | [] => false
  | _ :: t => contains sub t
  end.

(** Scan of [s.replace(old, new)] for a non-empty [old]: [skip] counts the
    characters of a match that are still to be dropped. *)
Fixpoint replace_from (old new : str) (skip : nat) (s : str) : str :=
  match s with
  | [] => []
  | c :: t =>
      match skip with
      | S k => replace_from old new k t
      | O =>
          if starts_with old s
          then new ++ replace_from old new (List.length old - 1) t
          else c :: replace_from old new 0 t
      end
  end.

(** [s.replace(old, new)]: every non-overlapping occurrence, left to right;
    an empty [old] matches before every character and at the end. *)
Definition replace (old new s : str) : str :=
  match old with
  | [] => new ++ flat_map (fun c => c :: new) s
  | _ :: _ => replace_from old new 0 s
  end.

(** [sep.join(items)] *)
Fixpoint join (sep : str) (items : list str) : str :=
  match items with
  | [] => []
  | x :: rest =>
      match rest with
      | [] => x
      | _ :: _ => x ++ sep ++ join sep rest
      end
  end.

(** *** Character classes on ASCII *)

Definition is_ascii (c : N) : bool := (c <? 128)%N.
Definition ascii_isdigit (c : N) : bool := (48 <=? c)%N && (c <=? 57)%N.
Definition ascii_isupper (c : N) : bool := (65 <=? c)%N && (c <=? 90)%N.
Definition ascii_islower (c : N) : bool := (97 <=? c)%N && (c <=? 122)%N.
Definition ascii_isalnum (c : N) : bool :=
  ascii_isdigit c || ascii_isupper c || ascii_islower c.
Definition ascii_tolower (c : N) : N :=
  if ascii_isupper c then (c + 32)%N else c.

(** *** Character tables above U+007F

    The interpreter's Unicode database, as far as the program consults it:
    the alphanumeric and digit classes, the full lower-case mapping (one code
    point may lower to several) and the final-sigma test that decides how
    U+03A3 lowers at a given index of a given string. *)
Record UnicodeData := {
  ud_isalnum : N -> bool;
  ud_isdigit : N -> bool;
  ud_tolower_full : N -> list N;
  ud_final_sigma : str -> nat -> bool
}.

Section WithTables.
Variable u : UnicodeData.

(** [c.isalnum()] for a one-character string *)
Definition isalnum (c : N) : bool :=
  if is_ascii c then ascii_isalnum c else ud_isalnum u c.

(** [c.isdigit()] for a one-character string *)
Definition isdigit (c : N) : bool :=
  if is_ascii c then ascii_isdigit c else ud_isdigit u c.

(** Lower-casing of the character [c] found at index [i] of [whole]. *)
Definition lower_char (whole : str) (i : nat) (c : N) : list N :=
  if is_ascii c then [ascii_tolower c]
  else if (c =? 931)%N
       then [if ud_final_sigma u whole i then 962%N else 963%N]
       else ud_tolower_full u c.

Fixpoint lower_from (whole : str) (i : nat) (rest : str) : str :=
  match rest with
  | [] => []
  | c :: t => lower_char whole i c ++ lower_from whole (S i) t
  end.

(** [s.lower()] *)
Definition lower (s : str) : str := lower_from s 0 s.
End WithTables.

(** A fragment of the Unicode database, exact on the code points listed
    (U+00B2 superscript two, U+00C9 and U+00E9 E-acute, U+0130 capital I with
    dot above, U+0307 combining dot above, U+20AC euro sign); every other
    entry is a placeholder and nothing below depends on it. *)
Definition ucd_sample : UnicodeData := {|
  ud_isalnum c :=
    ((c =? 178) || (c =? 201) || (c =? 233) || (c =? 304))%N;
  ud_isdigit c := (c =? 178)%N;
  ud_tolower_full c :=
    if (c =? 201)%N then [233%N]
    else if (c =? 304)%N then [105%N; 775%N]
    else [c];
  ud_final_sigma _ _ := false
|}.

End Str.
Import Str.

(** ** Outcomes of Python calls *)

(** The exceptions the program meets, each with the text [str(e)] gives. *)
Inductive PyExc :=
| IndexError (msg : str)
| UnboundLocalError (name : str)
| PlainException (msg : str)
| EngineError (cls : string) (msg : str).

Definition exc_text (e : PyExc) : str :=
  match e with
  | IndexError msg => msg
  | UnboundLocalError name =>
      lit "cannot access local variable '" ++ name ++
      lit "' where it is not associated with a value"
  | PlainException msg => msg
  | EngineError _ msg => msg
  end.

Inductive Result (A : Type) :=
| Ok (a : A)
| Raise (e : PyExc).
Arguments Ok {A} a.
Arguments Raise {A} e.

Definition bind {A B} (r : Result A) (k : A -> Result B) : Result B :=
  match r with
  | Ok a => k a
  | Raise e => Raise e
  end.

(** A list comprehension whose element expression may raise: elements are
    evaluated left to right and the first exception leaves the comprehension. *)
Fixpoint comprehension {A B} (f : A -> Result B) (l : list A) : Result (list B) :=
  match l with
  | [] => Ok []
  | x :: t =>
      bind (f x) (fun y => bind (comprehension f t) (fun ys => Ok (y :: ys)))
  end.

(** ** The column sanitiser *)

Section Sanitizer.
Variable u : UnicodeData.

(** The element expression of the generator at line 44:
    [c if c.isalnum() or c == '_' else '_']. *)
Definition keep_or_underscore (c : N) : str :=
  if isalnum u c || (c =? underscore)%N then [c] else lit "_".

(** Lines 41 and 44: spaces to underscores, then every character that is
    neither alphanumeric nor an underscore to an underscore. *)
Definition scrub (name : str) : str :=
  let clean_name := replace (lit " ") (lit "_") name in
  join [] (map keep_or_underscore clean_name).

Definition clean_column_name (name : str) : Result str :=
  let clean_name := scrub name in
  match nth_error clean_name 0 with
  | None => Raise (IndexError (lit "string index out of range"))
  | Some first =>
      let clean_name :=
        if isdigit u first then lit "col_" ++ clean_name else clean_name in
      Ok (lower u clean_name)
  end.

(** The sanitiser as section 4.1 of the specification words it, a total
    function on strings: each space becomes an underscore, each remaining
    character that is neither alphanumeric nor an underscore becomes an
    underscore, a fixed prefix goes in front when the first character is a
    digit, and the whole is lower-cased. *)
Definition despace (c : N) : N := if (c =? space)%N then underscore else c.

Definition scrub_char (c : N) : N :=
  if isalnum u c || (c =? underscore)%N then c else underscore.

Definition sanitize (raw : str) : str :=
  let s1 := map despace raw in
  let s2 := map scrub_char s1 in
  let s3 := match s2 with
            | c :: _ => if isdigit u c then lit "col_" ++ s2 else s2
            | [] => s2
            end in
  lower u s3.
End Sanitizer.

(** [^[a-z0-9_]+$] *)
Definition ident_char (c : N) : bool :=
  ascii_islower c || ascii_isdigit c || (c =? underscore)%N.

Definition matches_identifier (s : str) : bool :=
  match s with
  | [] => false
  | _ :: _ => forallb ident_char s
  end.

Definition starts_with_digit (s : str) : bool :=
  match s with
  | c :: _ => ascii_isdigit c
  | [] => false
  end.

Definition all_ascii (s : str) : bool := forallb is_ascii s.


(** ** Tabular data and the SQL engine *)

Inductive Scalar :=
| SNull
| SInt (z : Z)
| SFloat (repr : str)
| SText (s : str).

Record DataFrame := {
  df_columns : list str;
  df_data : list (list Scalar)
}.

(** [df.columns = cols] *)
Definition set_columns (df : DataFrame) (cols : list str) : DataFrame :=
  {| df_columns := cols; df_data := df_data df |}.

(** What the program asks of pandas and sqlite3.  [Conn] is the state of the
    database behind a [sqlite3.Connection]; a call that executes SQL returns
    the state it leaves.  [table_info_data] is the answer to
    [SELECT name FROM pragma_table_info('data')]. *)
Record Engine := {
  Conn : Type;
  Files : Type;
  memory_db : Conn;
  read_csv : Files -> str -> Result DataFrame;
  to_sql : DataFrame -> str -> Conn -> Conn * Result unit;
  read_sql_query : str -> Conn -> Conn * Result DataFrame;
  table_info_data : Conn -> list str
}.

(** The process: the files it can read and the connections it has opened,
    a connection object being its index in [connections]. *)
Record World (E : Engine) := {
  files : Files E;
  connections : list (Conn E)
}.
Arguments files {E} w.
Arguments connections {E} w.
Arguments Build_World {E} files connections.

Fixpoint store {A} (l : list A) (i : nat) (x : A) : list A :=
  match l, i with
  | [], _ => []
  | _ :: t, O => x :: t
  | y :: t, S j => y :: store t j x
  end.

Section Program.
Variable u : UnicodeData.
Variable E : Engine.

(** [sqlite3.connect(':memory:')] *)
Definition sqlite3_connect (w : World E) : World E * nat :=
  ({| files := files w; connections := connections w ++ [memory_db E] |},
   List.length (connections w)).

(** The database state behind the connection object [conn]. *)
Definition database (w : World E) (conn : nat) : Conn E :=
  nth conn (connections w) (memory_db E).

Definition create_database_from_csv (w : World E) (csv_path table_name : str)
  : World E * Result nat :=
  let '(w, conn) := sqlite3_connect w in
  match read_csv E (files w) csv_path with
  | Raise e => (w, Raise e)
  | Ok df =>
      match comprehension (clean_column_name u) (df_columns df) with
      | Raise e => (w, Raise e)
      | Ok cols =>
          let df := set_columns df cols in
          let '(db, r) := to_sql E df table_name (database w conn) in
          let w := {| files := files w;
                      connections := store (connections w) conn db |} in
          match r with
          | Raise e => (w, Raise e)
          | Ok _ => (w, Ok conn)
          end
      end
  end.

(** The raw-to-sanitised column mapping a load of [csv_path] computes
    (lines 20 and 23), in column order. *)
Definition column_mapping (w : World E) (csv_path : str)
  : Result (list (str * str)) :=
  bind (read_csv E (files w) csv_path) (fun df =>
  bind (comprehension (clean_column_name u) (df_columns df)) (fun cols =>
  Ok (combine (df_columns df) cols))).

(** [try: return pd.read_sql_query(modified_query, conn) / except: pass] *)
Definition attempt (conn : Conn E) (modified_query : str)
  : Conn E * option DataFrame :=
  match read_sql_query E modified_query conn with
  | (conn, Ok df) => (conn, Some df)
  | (conn, Raise _) => (conn, None)
  end.

Definition quoted (col : str) : str := [dquote] ++ col ++ [dquote].

(** The loop of lines 85-93.  It carries the connection state and the local
    [modified_query]; [Ok (Some df)] is a [return] from inside the loop,
    [Ok None] is falling out of it. *)
Fixpoint second_attempt (query : str) (actual_columns : list str)
    (conn : Conn E) (modified_query : str)
  : Conn E * str * Result (option DataFrame) :=
  match actual_columns with
  | [] => (conn, modified_query, Ok None)
  | col :: rest =>
      if contains (lit " ") col then
        match clean_column_name u col with
        | Raise e => (conn, modified_query, Raise e)
        | Ok clean_col =>
            let modified_query := replace (quoted col) clean_col query in
            match attempt conn modified_query with
            | (conn, Some df) => (conn, modified_query, Ok (Some df))
            | (conn, None) => second_attempt query rest conn modified_query
            end
        end
      else second_attempt query rest conn modified_query
  end.

(** The loop of lines 96-103. *)
Fixpoint third_attempt (query : str) (actual_columns : list str)
    (conn : Conn E) (modified_query : str)
  : Conn E * str * option DataFrame :=
  match actual_columns with
  | [] => (conn, modified_query, None)
  | col :: rest =>
      if contains (lit "raw") (lower u col)
         && contains (lit "predict") (lower u col) then
        let modified_query :=
          replace (quoted (lit "raw predicted")) (quoted col) query in
        match attempt conn modified_query with
        | (conn, Some df) => (conn, modified_query, Some df)
        | (conn, None) => third_attempt query rest conn modified_query
        end
      else third_attempt query rest conn modified_query
  end.

(** Line 106.  [actual_columns] is [None] while the local has not been
    assigned; reading it then raises [UnboundLocalError]. *)
Definition reraise (e : PyExc) (actual_columns : option (list str)) : PyExc :=
  match actual_columns with
  | None => UnboundLocalError (lit "actual_columns")
  | Some cols =>
      PlainException
        (lit "Query error: " ++ exc_text e ++ [10%N; 10%N] ++
         lit "Available columns: " ++ join (lit ", ") cols)
  end.

Definition execute_query (conn : Conn E) (query : str)
  : Conn E * Result DataFrame :=
  match read_sql_query E query conn with
  | (conn, Ok df) => (conn, Ok df)
  | (conn, Raise e) =>
      let error_str := lower u (exc_text e) in
      if contains (lit "no such column") error_str then
        let actual_columns := table_info_data E conn in
        let modified_query := replace [dquote] [backtick] query in
        match attempt conn modified_query with
        | (conn, Some df) => (conn, Ok df)
        | (conn, None) =>
            match second_attempt query actual_columns conn modified_query with
            | (conn, _, Raise e') => (conn, Raise e')
            | (conn, _, Ok (Some df)) => (conn, Ok df)
            | (conn, modified_query, Ok None) =>
                match third_attempt query actual_columns conn modified_query with
                | (conn, _, Some df) => (conn, Ok df)
                | (conn, _, None) =>
                    (conn, Raise (reraise e (Some actual_columns)))
                end
            end
        end
      else (conn, Raise (reraise e None))
  end.

(** *** The repair sequence as section 4.4 of the specification words it *)

(** Strategy 1: every double quote becomes a backtick. *)
Definition quote_style_candidate (query : str) : str :=
  replace [dquote] [backtick] query.

(** Strategy 2: one rewrite per stored column name that contains a space, in
    stored order: the double-quoted name becomes its sanitised form. *)
Definition space_column_candidates (query : str) (cols : list str) : list str :=
  map (fun col => replace (quoted col) (sanitize u col) query)
      (filter (contains (lit " ")) cols).

(** Strategy 3: one rewrite per stored column name that contains both [raw]
    and [predict], case-insensitively: the placeholder becomes that name. *)
Definition fuzzy_candidates (query : str) (cols : list str) : list str :=
  map (fun col => replace (quoted (lit "raw predicted")) (quoted col) query)
      (filter (fun col => contains (lit "raw") (lower u col)
                          && contains (lit "predict") (lower u col)) cols).

Definition repair_candidates (query : str) (cols : list str) : list str :=
  quote_style_candidate query
    :: space_column_candidates query cols ++ fuzzy_candidates query cols.

(** Execute the candidates in order, each on the state the previous one
    left, and stop at the first that succeeds. *)
Fixpoint first_success (conn : Conn E) (candidates : list str)
  : Conn E * option DataFrame :=
  match candidates with
  | [] => (conn, None)
  | q :: rest =>
      match read_sql_query E q conn with
      | (conn, Ok df) => (conn, Some df)
      | (conn, Raise _) => first_success conn rest
      end
  end.

End Program.

(** Two facts about the collaborators that some properties rest on.
    Lower-casing a character above U+007F never yields a space; and a table
    written as [data] reports the columns of the frame it was written from. *)
Definition space_free_lowering (u : UnicodeData) : Prop :=
  forall c, is_ascii c = false -> ~ In space (ud_tolower_full u c).

Definition reports_stored_columns (E : Engine) : Prop :=
  forall df db db',
    to_sql E df (lit "data") db = (db', Ok tt) ->
    table_info_data E db' = df_columns df.

(** *** Names and the character tables *)

(** No character of the name is both outside ASCII and alphanumeric. *)
Definition plain_name (u : UnicodeData) (name : str) : bool :=
  forallb (fun c => is_ascii c || negb (isalnum u c)) name.

(** A character a second cleaning keeps: alphanumeric or an underscore, and
    its own lower case wherever it stands. *)
Definition settled (u : UnicodeData) (d : N) : Prop :=
  isalnum u d || (d =? underscore)%N = true /\
  forall whole i, lower_char u whole i d = [d].

(** A character whose lower-casing, wherever it stands, is a non-empty run
    of settled characters, with a digit among them only if the character is
    a digit itself. *)
Definition lowers_cleanly (u : UnicodeData) (c : N) : Prop :=
  forall whole i,
    lower_char u whole i c <> [] /\
    Forall (fun d => settled u d /\
                     (isdigit u d = true -> isdigit u c = true))
      (lower_char u whole i c).

(** Every character of the name is ASCII, or not alphanumeric, or lowers
    cleanly. *)
Definition tame_name (u : UnicodeData) (name : str) : Prop :=
  Forall (fun c => is_ascii c = true \/ isalnum u c = false
                   \/ lowers_cleanly u c) name.

(** ** A miniature engine

    A stand-in for pandas over sqlite3 that understands three statement
    shapes, enough to run the program on concrete inputs:
    [SELECT <column> FROM data] with a bare, double-quoted or
    backtick-quoted column, optionally qualified as [data.<column>], and
    [DELETE FROM data].  As in sqlite3, a double-quoted name that is not
    qualified and names no column is read as a string literal; a bare,
    backtick-quoted or qualified name that names no column is an error.
    Names are matched exactly.  A statement that returns no rows is
    executed and then fails in pandas, which cannot build a frame from it. *)

Module MiniSQL.

Record Table := {
  t_name : str;
  t_columns : list str;
  t_rows : list (list Scalar)
}.

Definition Db := list Table.

Fixpoint str_eqb (a b : str) : bool :=
  match a, b with
  | [], [] => true
  | x :: a', y :: b' => (x =? y)%N && str_eqb a' b'
  | _, _ => false
  end.

Fixpoint strip_prefix (p s : str) : option str :=
  match p, s with
  | [], _ => Some s
  | _ :: _, [] => None
  | a :: p', b :: s' => if (a =? b)%N then strip_prefix p' s' else None
  end.

Definition strip_suffix (p s : str) : option str :=
  option_map (@rev N) (strip_prefix (rev p) (rev s)).

Fixpoint find_table (name : str) (db : Db) : option Table :=
  match db with
  | [] => None
  | t :: rest => if str_eqb (t_name t) name then Some t else find_table name rest
  end.

Definition drop_table (name : str) (db : Db) : Db :=
  filter (fun t => negb (str_eqb (t_name t) name)) db.

Fixpoint first_duplicate (cols : list str) : option str :=
  match cols with
  | [] => None
  | c :: rest =>
      if existsb (str_eqb c) rest then Some c else first_duplicate rest
  end.

Fixpoint index_of (col : str) (cols : list str) : option nat :=
  match cols with
  | [] => None
  | c :: rest =>
      if str_eqb c col then Some O else option_map S (index_of col rest)
  end.

Definition database_error (sql msg : str) : PyExc :=
  EngineError "DatabaseError"
    (lit "Execution failed on sql '" ++ sql ++ lit "': " ++ msg).

(** [df.to_sql(name, conn, index=False, if_exists='replace')] *)
Definition to_sql (df : DataFrame) (name : str) (db : Db) : Db * Result unit :=
  let db := drop_table name db in
  match first_duplicate (df_columns df) with
  | Some c =>
      (db, Raise (EngineError "OperationalError"
                    (lit "duplicate column name: " ++ c)))
  | None =>
      ({| t_name := name; t_columns := df_columns df; t_rows := df_data df |}
         :: db, Ok tt)
  end.

Inductive Statement :=
| SelectColumn (ref : str)
| DeleteAll
| Unparsed.

Definition parse (sql : str) : Statement :=
  if str_eqb sql (lit "DELETE FROM data") then DeleteAll
  else match strip_prefix (lit "SELECT ") sql with
       | None => Unparsed
       | Some r =>
           match strip_suffix (lit " FROM data") r with
           | None => Unparsed
           | Some ref => SelectColumn ref
           end
       end.

Definition bare_char (c : N) : bool :=
  is_ascii c && (ascii_isalnum c || (c =? underscore)%N).

(** A column reference: whether it is qualified by [data.], the quote
    character around the name if any, and the name. *)
Record Reference := {
  ref_qualified : bool;
  ref_quote : option N;
  ref_name : str
}.

Definition name_ref (qualified : bool) (ref : str) : option Reference :=
  match ref with
  | [] => None
  | q :: rest =>
      if (q =? dquote)%N || (q =? backtick)%N
      then option_map (Build_Reference qualified (Some q))
             (strip_suffix [q] rest)
      else if forallb bare_char ref
           then Some (Build_Reference qualified None ref)
           else None
  end.

Definition column_ref (ref : str) : option Reference :=
  match strip_prefix (lit "data.") ref with
  | Some rest => name_ref true rest
  | None => name_ref false ref
  end.

(** An unresolved name falls back to a string literal when it is
    double-quoted and not qualified. *)
Definition literal_fallback (r : Reference) : bool :=
  negb (ref_qualified r) &&
  match ref_quote r with
  | Some q => (q =? dquote)%N
  | None => false
  end.

Definition read_sql_query (sql : str) (db : Db) : Db * Result DataFrame :=
  match parse sql with
  | Unparsed => (db, Raise (database_error sql (lit "syntax error")))
  | DeleteAll =>
      match find_table (lit "data") db with
      | None => (db, Raise (database_error sql (lit "no such table: data")))
      | Some t =>
          ({| t_name := t_name t; t_columns := t_columns t; t_rows := [] |}
             :: drop_table (lit "data") db,
           Raise (EngineError "TypeError"
                    (lit "'NoneType' object is not iterable")))
      end
  | SelectColumn ref =>
      match find_table (lit "data") db, column_ref ref with
      | None, _ => (db, Raise (database_error sql (lit "no such table: data")))
      | Some _, None => (db, Raise (database_error sql (lit "syntax error")))
      | Some t, Some r =>
          match index_of (ref_name r) (t_columns t) with
          | Some i =>
              (db, Ok {| df_columns := [ref_name r];
                         df_data := map (fun row => [nth i row SNull])
                                        (t_rows t) |})
          | None =>
              if literal_fallback r
              then (db, Ok {| df_columns := [ref];
                              df_data := map (fun _ => [SText (ref_name r)])
                                             (t_rows t) |})
              else (db, Raise (database_error sql
                                 (lit "no such column: "
                                  ++ (if ref_qualified r then lit "data."
                                      else [])
                                  ++ ref_name r)))
          end
      end
  end.

Definition table_info_data (db : Db) : list str :=
  match find_table (lit "data") db with
  | None => []
  | Some t => t_columns t
  end.

(** Files already parsed: a path and the frame [pd.read_csv] makes of it. *)
Definition Files := list (str * DataFrame).

Fixpoint read_csv (fs : Files) (path : str) : Result DataFrame :=
  match fs with
  | [] => Raise (EngineError "FileNotFoundError" path)
  | (p, df) :: rest => if str_eqb p path then Ok df else read_csv rest path
  end.

Definition engine : Engine :=
  Build_Engine Db Files [] read_csv to_sql read_sql_query table_info_data.

(** A one-column file with the header [Passenger Class]. *)
Definition titanic_csv : DataFrame := {|
  df_columns := [lit "Passenger Class"];
  df_data := [[SInt 1]; [SInt 3]; [SInt 2]]
|}.

Definition titanic_files : Files := [(lit "titanic.csv", titanic_csv)].

Definition titanic_world : World engine :=
  Build_World (E := engine) titanic_files [].

(** The relation [create_database_from_csv] makes of that file. *)
Definition titanic_db : Db :=
  [{| t_name := lit "data";
      t_columns := [lit "passenger_class"];
      t_rows := [[SInt 1]; [SInt 3]; [SInt 2]] |}].

(** A relation made outside the loader, one of whose stored columns has
    spaces and mixed case. *)
Definition predictions_db : Db :=
  [{| t_name := lit "data";
      t_columns := [lit "id"; lit "Raw Predicted Value"];
      t_rows := [[SInt 1; SFloat (lit "0.25")]; [SInt 2; SFloat (lit "0.75")]] |}].

Definition select (ref : str) : str := lit "SELECT " ++ ref ++ lit " FROM data".

End MiniSQL.

(** ** The rest of the program

    [find_closest_column] of [utils/database.py], the response clean-up of
    [utils/llm_service.py] and the column-name mapping [app.py] displays. *)

(** [a == b] on strings *)
Fixpoint eqb_str (a b : str) : bool :=
  match a, b with
  | [], [] => true
  | x :: a', y :: b' => (x =? y)%N && eqb_str a' b'
  | _, _ => false
  end.

(** [find_closest_column], lines 109-126: the first column equal to
    [problem_col] when both are lower-cased, or [None]. *)
Fixpoint find_closest_column (u : UnicodeData) (problem_col : str)
    (actual_columns : list str) : option str :=
  match actual_columns with
  | [] => None
  | col :: rest =>
      if eqb_str (lower u col) (lower u problem_col) then Some col
      else find_closest_column u problem_col rest
  end.

(** [c.isspace()]: the white space [str.strip()] removes. *)
Definition isspace (c : N) : bool :=
  ((9 <=? c) && (c <=? 13) || (28 <=? c) && (c <=? 32)
   || (c =? 133) || (c =? 160) || (c =? 5760)
   || (8192 <=? c) && (c <=? 8202)
   || (c =? 8232) || (c =? 8233) || (c =? 8239) || (c =? 8287)
   || (c =? 12288))%N.

Fixpoint lstrip (s : str) : str :=
  match s with
  | [] => []
  | c :: t => if isspace c then lstrip t else s
  end.

Definition rstrip (s : str) : str := rev (lstrip (rev s)).

(** [s.strip()] *)
Definition strip (s : str) : str := rstrip (lstrip s).

(** Scan of [s.split(sep)] for a non-empty [sep]; the head of the result is
    the piece being read, and [skip] counts the characters of a separator
    that are still to be dropped. *)
Fixpoint split_from (sep : str) (skip : nat) (s : str) : list str :=
  match s with
  | [] => [[]]
  | c :: t =>
      match skip with
      | S k => split_from sep k t
      | O =>
          if starts_with sep s
          then [] :: split_from sep (List.length sep - 1) t
          else match split_from sep 0 t with
               | piece :: more => (c :: piece) :: more
               | [] => [[c]]
               end
      end
  end.

(** [s.split(sep)]; an empty separator is a [ValueError]. *)
Definition split (sep s : str) : Result (list str) :=
  match sep with
  | [] => Raise (EngineError "ValueError" (lit "empty separator"))
  | _ :: _ => Ok (split_from sep 0 s)
  end.

(** [l[i]] for a non-negative [i] *)
Definition index {A} (l : list A) (i : nat) : Result A :=
  match nth_error l i with
  | Some x => Ok x
  | None => Raise (IndexError (lit "list index out of range"))
  end.

(** The upper-case mapping above U+007F. *)
Record UpperData := {
  ud_toupper_full : N -> list N
}.

Definition ascii_toupper (c : N) : N :=
  if ascii_islower c then (c - 32)%N else c.

(** [s.upper()] *)
Definition upper (uu : UpperData) (s : str) : str :=
  flat_map (fun c => if is_ascii c then [ascii_toupper c]
                     else ud_toupper_full uu c) s.

Definition sql_fence : str := lit "```sql".
Definition fence : str := lit "```".

(** [extract_sql_from_response], lines 64-88.  [Ok None] from the first
    block is falling out of it without a [return]. *)
Definition extract_sql_from_response (u : UnicodeData) (uu : UpperData)
    (response : str) : Result str :=
  let fenced : Result (option str) :=
    if contains sql_fence response then
      bind (split sql_fence response) (fun parts =>
        if (1 <? List.length parts)%nat then
          bind (index parts 1) (fun part =>
          bind (split fence part) (fun inner =>
          bind (index inner 0) (fun sql_part =>
          Ok (Some (strip sql_part)))))
        else Ok None)
    else Ok None in
  bind fenced (fun found =>
    match found with
    | Some sql_part => Ok sql_part
    | None =>
        if contains (lit "SELECT") (upper uu response)
           || contains (lit "select") (lower u response)
        then Ok (strip response)
        else Ok (strip response)
    end).

(** A [dict] with string keys, in insertion order: assigning to a key that
    is present keeps its place and replaces its value. *)
Fixpoint dict_set (d : list (str * str)) (k v : str) : list (str * str) :=
  match d with
  | [] => [(k, v)]
  | (k', v') :: rest =>
      if eqb_str k' k then (k', v) :: rest else (k', v') :: dict_set rest k v
  end.

(** [{k: v for k, v in pairs}] *)
Definition dict_comprehension (pairs : list (str * str)) : list (str * str) :=
  fold_left (fun d kv => dict_set d (fst kv) (snd kv)) pairs [].

(** [app.py], lines 129-132: the processed names of the frame's columns and
    the mapping from original to processed name. *)
Definition processed_column_mapping (u : UnicodeData) (df : DataFrame)
  : Result (list (str * str)) :=
  bind (comprehension (clean_column_name u) (df_columns df))
    (fun processed_columns =>
       Ok (dict_comprehension (combine (df_columns df) processed_columns))).

(** * Properties *)

(** ** Strings *)

Lemma lit_space : lit " " = [space].
Proof. reflexivity. Qed.

Lemma lit_underscore : lit "_" = [underscore].
Proof. reflexivity. Qed.

Lemma replace_char (a b : N) (s : str) :
  replace [a] [b] s = map (fun c => if (c =? a)%N then b else c) s.
Proof.
  unfold replace.
  induction s as [|c t IH]; simpl; [reflexivity|].
  rewrite andb_true_r, N.eqb_sym.
  destruct (c =? a)%N; simpl; now rewrite IH.
Qed.

Lemma join_singletons (f : N -> N) (g : N -> str) (s : str) :
  (forall c, g c = [f c]) -> join [] (map g s) = map f s.
Proof.
  intros Hg.
  induction s as [|c t IH]; simpl; [reflexivity|].
  rewrite Hg.
  destruct t as [|d t']; [reflexivity|].
  change (map g (d :: t')) with (g d :: map g t') in *.
  change (map f (d :: t')) with (f d :: map f t') in *.
  simpl in IH |- *. rewrite <- IH. reflexivity.
Qed.

Lemma starts_with_app (p s : str) : starts_with p (p ++ s) = true.
Proof.
  induction p as [|a p IH]; simpl; [reflexivity|].
  now rewrite N.eqb_refl, IH.
Qed.

Lemma contains_infix (pre sub post : str) :
  contains sub (pre ++ sub ++ post) = true.
Proof.
  induction pre as [|a pre IH]; simpl.
  - destruct (sub ++ post) eqn:Heq; simpl;
      rewrite <- Heq, starts_with_app; reflexivity.
  - rewrite IH. apply orb_true_r.
Qed.

Lemma contains_char (a : N) (s : str) :
  contains [a] s = existsb (N.eqb a) s.
Proof.
  induction s as [|c t IH]; simpl; [reflexivity|].
  rewrite IH. destruct (a =? c)%N; reflexivity.
Qed.

Lemma contains_nonempty (sub s : str) :
  sub <> [] -> contains sub s = true -> s <> [].
Proof.
  intros Hsub H ->. destruct sub; [congruence|discriminate].
Qed.

(** ** The sanitiser *)

Section SanitizerFacts.
Variable u : UnicodeData.

Lemma scrub_map (name : str) :
  scrub u name = map (scrub_char u) (map despace name).
Proof.
  unfold scrub. rewrite lit_space, lit_underscore, replace_char.
  apply join_singletons. intros c. unfold keep_or_underscore, scrub_char.
  rewrite lit_underscore. now destruct (isalnum u c || (c =? underscore)%N).
Qed.

Lemma scrub_length (name : str) :
  List.length (scrub u name) = List.length name.
Proof. rewrite scrub_map. now rewrite !length_map. Qed.

(** On a non-empty name the code computes what the specification words. *)
Lemma clean_column_name_sanitize (name : str) :
  name <> [] -> clean_column_name u name = Ok (sanitize u name).
Proof.
  intros Hne. unfold clean_column_name, sanitize.
  rewrite scrub_map.
  destruct name as [|c t]; [congruence|]. reflexivity.
Qed.

Lemma clean_column_name_empty :
  clean_column_name u [] = Raise (IndexError (lit "string index out of range")).
Proof. reflexivity. Qed.

Lemma lower_from_ascii (whole : str) (i : nat) (s : str) :
  all_ascii s = true -> lower_from u whole i s = map ascii_tolower s.
Proof.
  revert i. induction s as [|c t IH]; intros i H; simpl in *; [reflexivity|].
  apply andb_true_iff in H as [Hc Ht].
  unfold lower_char. rewrite Hc. simpl. now rewrite IH.
Qed.

Lemma lower_ascii (s : str) :
  all_ascii s = true -> lower u s = map ascii_tolower s.
Proof. apply lower_from_ascii. Qed.
End SanitizerFacts.

(** Case analysis on the comparisons behind the ASCII character classes,
    dropping impossible branches as they appear. *)
Ltac no_test t :=
  lazymatch t with
  | context [if _ then _ else _] => fail
  | _ => idtac
  end.

Ltac char_step :=
  match goal with
  | |- context [(?a <=? ?b)%N] =>
      no_test a; no_test b; destruct (N.leb_spec a b)
  | |- context [(?a <? ?b)%N] =>
      no_test a; no_test b; destruct (N.ltb_spec a b)
  | |- context [(?a =? ?b)%N] =>
      no_test a; no_test b; destruct (N.eqb_spec a b)
  end;
  try (exfalso; lia); cbv beta iota; cbn [andb orb negb].

Ltac char_cases :=
  unfold ident_char, scrub_char, despace, isalnum, isdigit, ascii_isalnum,
    ascii_tolower, ascii_isdigit, ascii_isupper, ascii_islower, is_ascii,
    underscore, space;
  repeat char_step;
  intros; try reflexivity; try discriminate; try lia.

Section AsciiNames.
Variable u : UnicodeData.

Lemma scrubbed_ascii (c : N) :
  is_ascii c = true -> is_ascii (scrub_char u (despace c)) = true.
Proof. char_cases. Qed.

Lemma scrubbed_lower_ident (c : N) :
  is_ascii c = true ->
  ident_char (ascii_tolower (scrub_char u (despace c))) = true.
Proof. char_cases. Qed.

Lemma scrubbed_isdigit (c : N) :
  is_ascii c = true ->
  isdigit u (scrub_char u (despace c)) = ascii_isdigit c.
Proof. char_cases. Qed.

Lemma scrubbed_lower_digit (c : N) :
  is_ascii c = true ->
  ascii_isdigit c = false ->
  ascii_isdigit (ascii_tolower (scrub_char u (despace c))) = false.
Proof. char_cases. Qed.

Lemma ident_char_fixed (c : N) :
  ident_char c = true ->
  is_ascii c = true /\ scrub_char u (despace c) = c /\ ascii_tolower c = c /\
  isdigit u c = ascii_isdigit c.
Proof. char_cases; repeat split; char_cases. Qed.

Lemma scrub_all_ascii (name : str) :
  all_ascii name = true -> all_ascii (scrub u name) = true.
Proof.
  rewrite scrub_map. unfold all_ascii. rewrite map_map, !forallb_forall.
  intros H x Hx. apply in_map_iff in Hx as (c & <- & Hc).
  apply scrubbed_ascii, H, Hc.
Qed.

Lemma scrub_lower_ident (name : str) :
  all_ascii name = true ->
  forallb ident_char (map ascii_tolower (scrub u name)) = true.
Proof.
  rewrite scrub_map. unfold all_ascii. rewrite !map_map, !forallb_forall.
  intros H x Hx. apply in_map_iff in Hx as (c & <- & Hc).
  apply scrubbed_lower_ident, H, Hc.
Qed.

Lemma matches_identifier_iff (s : str) :
  matches_identifier s = true <-> s <> [] /\ forallb ident_char s = true.
Proof.
  destruct s as [|c t]; simpl; split.
  - discriminate.
  - intros [H _]. congruence.
  - intros H. split; [discriminate|exact H].
  - intros [_ H]. exact H.
Qed.

(** What [clean_column_name] returns on a non-empty ASCII name. *)
Lemma clean_column_name_ascii (name : str) :
  name <> [] ->
  all_ascii name = true ->
  let out := map ascii_tolower
               ((if starts_with_digit name then lit "col_" else [])
                  ++ scrub u name) in
  clean_column_name u name = Ok out /\
  matches_identifier out = true /\
  starts_with_digit out = false.
Proof.
  intros Hne Hascii out.
  pose proof (scrub_all_ascii name Hascii) as Hscrub.
  pose proof (scrub_lower_ident name Hascii) as Hident.
  destruct name as [|c t]; [congruence|].
  assert (Hc : is_ascii c = true)
    by (simpl in Hascii; now apply andb_true_iff in Hascii).
  assert (Hshape : scrub u (c :: t)
                   = scrub_char u (despace c) :: scrub u t)
    by (now rewrite !scrub_map).
  unfold clean_column_name. subst out. cbn [starts_with_digit].
  rewrite Hshape at 1. cbn [nth_error].
  rewrite scrubbed_isdigit by assumption.
  destruct (ascii_isdigit c) eqn:Hd.
  - rewrite lower_ascii
      by (unfold all_ascii in *; rewrite forallb_app, Hscrub; reflexivity).
    split; [reflexivity|]. split; [|reflexivity].
    apply matches_identifier_iff. split; [discriminate|].
    rewrite map_app, forallb_app, Hident. reflexivity.
  - rewrite lower_ascii by assumption. cbn [app].
    split; [reflexivity|]. split.
    + apply matches_identifier_iff. split; [|exact Hident].
      rewrite Hshape. discriminate.
    + rewrite Hshape. cbn [map starts_with_digit].
      now apply scrubbed_lower_digit.
Qed.

(** A name that already is an identifier is left as it is. *)
Lemma clean_column_name_identifier (name : str) :
  matches_identifier name = true ->
  starts_with_digit name = false ->
  clean_column_name u name = Ok name.
Proof.
  intros Hm Hd.
  assert (Hall : forallb ident_char name = true)
    by (destruct name; [discriminate|exact Hm]).
  assert (Hfix : map (scrub_char u) (map despace name) = name
                 /\ map ascii_tolower name = name /\ all_ascii name = true).
  { clear Hm Hd. induction name as [|c t IH]; [repeat split|].
    simpl in Hall. apply andb_true_iff in Hall as [Hc Ht].
    destruct (IH Ht) as (IH1 & IH2 & IH3).
    destruct (ident_char_fixed c Hc) as (Ha & Hs & Hl & _).
    simpl. rewrite Hs, Hl, IH1, IH2, Ha. repeat split; assumption. }
  destruct Hfix as (Hs & Hl & Ha).
  unfold clean_column_name. rewrite scrub_map, Hs.
  destruct name as [|c t]; [discriminate|].
  cbn [nth_error]. simpl in Hall. apply andb_true_iff in Hall as [Hc _].
  destruct (ident_char_fixed c Hc) as (_ & _ & _ & Hdig).
  rewrite Hdig. simpl in Hd. rewrite Hd.
  now rewrite lower_ascii, Hl.
Qed.
End AsciiNames.

(** ** Names beyond ASCII *)

Section ForeignNames.
Variable u : UnicodeData.

Lemma foreign_not_digit (c : N) :
  is_ascii c = false -> ascii_isdigit c = false.
Proof. char_cases. Qed.

(** A character outside ASCII that is not alphanumeric becomes an
    underscore. *)
Lemma scrub_foreign (c : N) :
  is_ascii c = false -> isalnum u c = false ->
  scrub_char u (despace c) = underscore.
Proof.
  intros Ha Hn.
  assert (Hd : despace c = c).
  { unfold despace. destruct (N.eqb_spec c space) as [->|_];
      [discriminate|reflexivity]. }
  rewrite Hd. unfold scrub_char. rewrite Hn.
  destruct (N.eqb_spec c underscore) as [->|_]; [discriminate|reflexivity].
Qed.

Lemma plain_char_cases (c : N) :
  is_ascii c || negb (isalnum u c) = true ->
  is_ascii c = true \/ (is_ascii c = false /\ isalnum u c = false).
Proof.
  destruct (is_ascii c); [now left|]. destruct (isalnum u c);
    [discriminate|now right].
Qed.

Lemma plain_scrubbed_ascii (c : N) :
  is_ascii c || negb (isalnum u c) = true ->
  is_ascii (scrub_char u (despace c)) = true.
Proof.
  intros H. destruct (plain_char_cases c H) as [Ha|[Ha Hn]].
  - now apply scrubbed_ascii.
  - now rewrite scrub_foreign.
Qed.

Lemma plain_scrubbed_lower_ident (c : N) :
  is_ascii c || negb (isalnum u c) = true ->
  ident_char (ascii_tolower (scrub_char u (despace c))) = true.
Proof.
  intros H. destruct (plain_char_cases c H) as [Ha|[Ha Hn]].
  - now apply scrubbed_lower_ident.
  - now rewrite scrub_foreign.
Qed.

Lemma plain_scrubbed_isdigit (c : N) :
  is_ascii c || negb (isalnum u c) = true ->
  isdigit u (scrub_char u (despace c)) = ascii_isdigit c.
Proof.
  intros H. destruct (plain_char_cases c H) as [Ha|[Ha Hn]].
  - now apply scrubbed_isdigit.
  - rewrite scrub_foreign, foreign_not_digit by assumption. reflexivity.
Qed.

Lemma plain_scrubbed_lower_digit (c : N) :
  is_ascii c || negb (isalnum u c) = true ->
  ascii_isdigit c = false ->
  ascii_isdigit (ascii_tolower (scrub_char u (despace c))) = false.
Proof.
  intros H Hd. destruct (plain_char_cases c H) as [Ha|[Ha Hn]].
  - now apply scrubbed_lower_digit.
  - now rewrite scrub_foreign.
Qed.

Lemma plain_scrub_all_ascii (name : str) :
  plain_name u name = true -> all_ascii (scrub u name) = true.
Proof.
  rewrite scrub_map. unfold all_ascii, plain_name.
  rewrite map_map, !forallb_forall.
  intros H x Hx. apply in_map_iff in Hx as (c & <- & Hc).
  apply plain_scrubbed_ascii, H, Hc.
Qed.

Lemma plain_scrub_lower_ident (name : str) :
  plain_name u name = true ->
  forallb ident_char (map ascii_tolower (scrub u name)) = true.
Proof.
  rewrite scrub_map. unfold plain_name. rewrite !map_map, !forallb_forall.
  intros H x Hx. apply in_map_iff in Hx as (c & <- & Hc).
  apply plain_scrubbed_lower_ident, H, Hc.
Qed.

(** What [clean_column_name] returns on a non-empty plain name. *)
Lemma clean_column_name_plain (name : str) :
  name <> [] ->
  plain_name u name = true ->
  let out := map ascii_tolower
               ((if starts_with_digit name then lit "col_" else [])
                  ++ scrub u name) in
  clean_column_name u name = Ok out /\
  matches_identifier out = true /\
  starts_with_digit out = false.
Proof.
  intros Hne Hplain out.
  pose proof (plain_scrub_all_ascii name Hplain) as Hscrub.
  pose proof (plain_scrub_lower_ident name Hplain) as Hident.
  destruct name as [|c t]; [congruence|].
  assert (Hc : is_ascii c || negb (isalnum u c) = true)
    by (unfold plain_name in Hplain; simpl in Hplain;
        now apply andb_true_iff in Hplain).
  assert (Hshape : scrub u (c :: t)
                   = scrub_char u (despace c) :: scrub u t)
    by (now rewrite !scrub_map).
  unfold clean_column_name. subst out. cbn [starts_with_digit].
  rewrite Hshape at 1. cbn [nth_error].
  rewrite plain_scrubbed_isdigit by assumption.
  destruct (ascii_isdigit c) eqn:Hd.
  - rewrite lower_ascii
      by (unfold all_ascii in *; rewrite forallb_app, Hscrub; reflexivity).
    split; [reflexivity|]. split; [|reflexivity].
    apply matches_identifier_iff. split; [discriminate|].
    rewrite map_app, forallb_app, Hident. reflexivity.
  - rewrite lower_ascii by assumption. cbn [app].
    split; [reflexivity|]. split.
    + apply matches_identifier_iff. split; [|exact Hident].
      rewrite Hshape. discriminate.
    + rewrite Hshape. cbn [map starts_with_digit].
      now apply plain_scrubbed_lower_digit.
Qed.

(** *** Characters that lower cleanly *)

Lemma tolower_ascii (x : N) :
  is_ascii x = true -> is_ascii (ascii_tolower x) = true.
Proof. char_cases. Qed.

Lemma tolower_twice (x : N) :
  ascii_tolower (ascii_tolower x) = ascii_tolower x.
Proof. char_cases. Qed.

Lemma tolower_kept (x : N) :
  is_ascii x = true ->
  ascii_isalnum x || (x =? underscore)%N = true ->
  ascii_isalnum (ascii_tolower x) || (ascii_tolower x =? underscore)%N = true.
Proof. char_cases. Qed.

Lemma tolower_digit (x : N) :
  ascii_isdigit (ascii_tolower x) = ascii_isdigit x.
Proof. char_cases. Qed.

Lemma scrubbed_kept_ascii (c : N) :
  is_ascii c = true ->
  ascii_isalnum (scrub_char u (despace c))
  || (scrub_char u (despace c) =? underscore)%N = true.
Proof. char_cases. Qed.

Lemma ascii_lowers_cleanly (x : N) :
  is_ascii x = true ->
  ascii_isalnum x || (x =? underscore)%N = true ->
  lowers_cleanly u x.
Proof.
  intros Ha Hk whole i. unfold lower_char. rewrite Ha.
  split; [discriminate|]. constructor; [|constructor].
  pose proof (tolower_ascii x Ha) as Hla. split; [split|].
  - unfold isalnum. rewrite Hla. now apply tolower_kept.
  - intros w j. unfold lower_char. now rewrite Hla, tolower_twice.
  - unfold isdigit. now rewrite Hla, Ha, tolower_digit.
Qed.

Lemma tame_scrubbed (c : N) :
  is_ascii c = true \/ isalnum u c = false \/ lowers_cleanly u c ->
  lowers_cleanly u (scrub_char u (despace c)).
Proof.
  intros H. destruct (is_ascii c) eqn:Ha.
  - apply ascii_lowers_cleanly;
      [now apply scrubbed_ascii|now apply scrubbed_kept_ascii].
  - destruct (isalnum u c) eqn:Hn.
    + destruct H as [H|[H|H]]; try discriminate.
      assert (Hd : despace c = c).
      { unfold despace. destruct (N.eqb_spec c space) as [->|_];
          [discriminate|reflexivity]. }
      rewrite Hd. unfold scrub_char. now rewrite Hn.
    + rewrite scrub_foreign by assumption.
      now apply ascii_lowers_cleanly.
Qed.

Lemma settled_kept (d : N) :
  settled u d -> scrub_char u (despace d) = d.
Proof.
  intros [Hk _].
  assert (Hd : despace d = d).
  { unfold despace. destruct (N.eqb_spec d space) as [->|_];
      [discriminate|reflexivity]. }
  rewrite Hd. unfold scrub_char. now rewrite Hk.
Qed.

Lemma lower_from_settled (whole : str) (i : nat) (s : str) :
  Forall (lowers_cleanly u) s ->
  Forall (settled u) (lower_from u whole i s).
Proof.
  intros H. revert i. induction H as [|c t Hc _ IH]; intros i; simpl;
    [constructor|].
  apply Forall_app. split; [|apply IH].
  destruct (Hc whole i) as [_ Hall].
  eapply Forall_impl; [|exact Hall]. now intros d [Hd _].
Qed.

Lemma lower_from_first (whole : str) (i : nat) (c : N) (t : str) :
  lowers_cleanly u c ->
  isdigit u c = false ->
  exists d rest,
    lower_from u whole i (c :: t) = d :: rest /\ isdigit u d = false.
Proof.
  intros Hc Hdig. simpl. destruct (Hc whole i) as [Hne Hall].
  destruct (lower_char u whole i c) as [|d l]; [congruence|].
  exists d, (l ++ lower_from u whole (S i) t). split; [reflexivity|].
  inversion Hall as [|? ? [_ Hd] _]; subst.
  destruct (isdigit u d); [|reflexivity].
  rewrite Hd in Hdig by reflexivity. discriminate.
Qed.

Lemma lower_from_fixed (whole : str) (i : nat) (s : str) :
  Forall (settled u) s -> lower_from u whole i s = s.
Proof.
  intros H. revert i. induction H as [|d t [_ Hd] _ IH]; intros i; simpl;
    [reflexivity|].
  now rewrite Hd, IH.
Qed.

(** A string of settled characters that does not start with a digit is
    left as it is. *)
Lemma clean_column_name_settled (out : str) (d : N) (rest : str) :
  Forall (settled u) out ->
  out = d :: rest ->
  isdigit u d = false ->
  clean_column_name u out = Ok out.
Proof.
  intros Hall Hout Hdig.
  assert (Hs : scrub u out = out).
  { rewrite scrub_map, map_map.
    clear Hout. induction Hall as [|x t Hx _ IH]; simpl; [reflexivity|].
    now rewrite (settled_kept x Hx), IH. }
  unfold clean_column_name. rewrite Hs. subst out. cbn [nth_error].
  rewrite Hdig. unfold lower. now rewrite lower_from_fixed.
Qed.

Lemma plain_name_tame (name : str) :
  plain_name u name = true -> tame_name u name.
Proof.
  unfold plain_name, tame_name. rewrite forallb_forall, Forall_forall.
  intros H c Hc. destruct (plain_char_cases c (H c Hc)) as [Ha|[_ Hn]];
    [now left|now right; left].
Qed.

(** Cleaning a non-empty tame name gives a string that a second cleaning
    leaves as it is. *)
Lemma clean_column_name_tame (name : str) :
  name <> [] ->
  tame_name u name ->
  exists out,
    clean_column_name u name = Ok out /\ clean_column_name u out = Ok out.
Proof.
  intros Hne Htame.
  assert (Hscrub : Forall (lowers_cleanly u) (scrub u name)).
  { rewrite scrub_map, map_map. unfold tame_name in Htame. clear Hne.
    induction Htame as [|c t Hc _ IH]; simpl;
      [constructor|constructor; [now apply tame_scrubbed|exact IH]]. }
  destruct name as [|c t]; [congruence|].
  assert (Hshape : scrub u (c :: t)
                   = scrub_char u (despace c) :: scrub u t)
    by (now rewrite !scrub_map).
  rewrite Hshape in Hscrub.
  assert (Hclean :
            clean_column_name u (c :: t)
            = Ok (lower u (if isdigit u (scrub_char u (despace c))
                           then lit "col_"
                                ++ scrub_char u (despace c) :: scrub u t
                           else scrub_char u (despace c) :: scrub u t)))
    by (unfold clean_column_name; rewrite Hshape; reflexivity).
  eexists. split; [exact Hclean|].
  destruct (isdigit u (scrub_char u (despace c))) eqn:Hdig.
  - assert (Hall : Forall (lowers_cleanly u)
                     (lit "col_" ++ scrub_char u (despace c) :: scrub u t)).
    { apply Forall_app. split; [|exact Hscrub].
      change (lit "col_") with [99%N; 111%N; 108%N; 95%N].
      do 4 (constructor; [now apply ascii_lowers_cleanly|]). constructor. }
    unfold lower.
    set (whole := lit "col_" ++ scrub_char u (despace c) :: scrub u t) in *.
    destruct (lower_from_first whole 0 99%N
                (lit "ol_" ++ scrub_char u (despace c) :: scrub u t))
      as (d & rest & Hd & Hnd);
      [now apply ascii_lowers_cleanly|reflexivity|].
    change (99%N :: lit "ol_" ++ scrub_char u (despace c) :: scrub u t)
      with whole in Hd.
    apply (clean_column_name_settled _ d rest);
      [now apply lower_from_settled|exact Hd|exact Hnd].
  - unfold lower.
    set (whole := scrub_char u (despace c) :: scrub u t) in *.
    inversion Hscrub as [|? ? Hc0 _]; subst.
    destruct (lower_from_first whole 0 (scrub_char u (despace c)) (scrub u t)
                Hc0 Hdig) as (d & rest & Hd & Hnd).
    apply (clean_column_name_settled _ d rest);
      [now apply lower_from_settled|exact Hd|exact Hnd].
Qed.
End ForeignNames.

(** ** The repair sequence *)

Section RepairFacts.
Variable u : UnicodeData.
Variable E : Engine.

Lemma first_success_app (conn : Conn E) (l1 l2 : list str) :
  first_success E conn (l1 ++ l2) =
  match first_success E conn l1 with
  | (conn', Some df) => (conn', Some df)
  | (conn', None) => first_success E conn' l2
  end.
Proof.
  revert conn. induction l1 as [|q l1 IH]; intros conn; simpl; [reflexivity|].
  destruct (read_sql_query E q conn) as [conn' [df|e]]; [reflexivity|apply IH].
Qed.

Lemma attempt_first_success (conn : Conn E) (q : str) (rest : list str) :
  first_success E conn (q :: rest) =
  match attempt E conn q with
  | (conn', Some df) => (conn', Some df)
  | (conn', None) => first_success E conn' rest
  end.
Proof.
  unfold attempt. simpl.
  destruct (read_sql_query E q conn) as [conn' [df|e]]; reflexivity.
Qed.

(** The second loop tries the space-column candidates in order. *)
Lemma second_attempt_candidates (query : str) (cols : list str) :
  forall (conn : Conn E) (mq : str),
  exists mq',
    second_attempt u E query cols conn mq =
    (fst (first_success E conn (space_column_candidates u query cols)), mq',
     Ok (snd (first_success E conn (space_column_candidates u query cols)))).
Proof.
  induction cols as [|col rest IH]; intros conn mq.
  - exists mq. reflexivity.
  - unfold space_column_candidates in *. cbn [second_attempt filter].
    destruct (contains (lit " ") col) eqn:Hsp; [|apply IH].
    rewrite clean_column_name_sanitize
      by (eapply contains_nonempty; [|exact Hsp]; discriminate).
    cbn [map]. rewrite attempt_first_success.
    destruct (attempt E conn _) as [conn' [df|]].
    + eexists. reflexivity.
    + apply IH.
Qed.

(** The third loop tries the fuzzy candidates in order. *)
Lemma third_attempt_candidates (query : str) (cols : list str) :
  forall (conn : Conn E) (mq : str),
  exists mq',
    third_attempt u E query cols conn mq =
    (fst (first_success E conn (fuzzy_candidates u query cols)), mq',
     snd (first_success E conn (fuzzy_candidates u query cols))).
Proof.
  induction cols as [|col rest IH]; intros conn mq.
  - exists mq. reflexivity.
  - unfold fuzzy_candidates in *. cbn [third_attempt filter].
    destruct (contains (lit "raw") (lower u col)
              && contains (lit "predict") (lower u col)); [|apply IH].
    cbn [map]. rewrite attempt_first_success.
    destruct (attempt E conn _) as [conn' [df|]].
    + eexists. reflexivity.
    + apply IH.
Qed.

(** After a column-resolution failure [execute_query] is the first success
    among the repair candidates, or the final failure. *)
Lemma execute_query_repair (conn c1 : Conn E) (query : str) (e : PyExc) :
  read_sql_query E query conn = (c1, Raise e) ->
  contains (lit "no such column") (lower u (exc_text e)) = true ->
  execute_query u E conn query =
  match first_success E c1 (repair_candidates u query (table_info_data E c1)) with
  | (c', Some df) => (c', Ok df)
  | (c', None) => (c', Raise (reraise e (Some (table_info_data E c1))))
  end.
Proof.
  intros Hrun Hcol. unfold execute_query. rewrite Hrun, Hcol.
  unfold repair_candidates, quote_style_candidate.
  rewrite attempt_first_success.
  destruct (attempt E c1 _) as [c2 [df|]]; [reflexivity|].
  rewrite first_success_app.
  destruct (second_attempt_candidates query (table_info_data E c1) c2
              (replace [dquote] [backtick] query)) as [mq' ->].
  destruct (first_success E c2 (space_column_candidates u query _))
    as [c3 [df|]]; cbn [fst snd]; [reflexivity|].
  destruct (third_attempt_candidates query (table_info_data E c1) c3 mq')
    as [mq'' ->].
  destruct (first_success E c3 (fuzzy_candidates u query _))
    as [c4 [df|]]; reflexivity.
Qed.

(** Any other failure leaves through line 106 with [actual_columns] unbound. *)
Lemma execute_query_other_error (conn c1 : Conn E) (query : str) (e : PyExc) :
  read_sql_query E query conn = (c1, Raise e) ->
  contains (lit "no such column") (lower u (exc_text e)) = false ->
  execute_query u E conn query =
  (c1, Raise (UnboundLocalError (lit "actual_columns"))).
Proof.
  intros Hrun Hcol. unfold execute_query. now rewrite Hrun, Hcol.
Qed.

Lemma first_success_frame (conn : Conn E) (l : list str) :
  (forall q, In q l -> fst (read_sql_query E q conn) = conn) ->
  fst (first_success E conn l) = conn.
Proof.
  induction l as [|q l IH]; intros H; simpl; [reflexivity|].
  pose proof (H q (or_introl eq_refl)) as Hq.
  destruct (read_sql_query E q conn) as [conn' [df|e]]; simpl in Hq; subst.
  - reflexivity.
  - apply IH. intros q' Hq'. apply H. now right.
Qed.

(** A column list without spaces gives strategy 2 nothing to do. *)
Lemma second_attempt_idle (query : str) (cols : list str)
    (conn : Conn E) (mq : str) :
  Forall (fun col => contains (lit " ") col = false) cols ->
  second_attempt u E query cols conn mq = (conn, mq, Ok None).
Proof.
  induction 1 as [|col rest Hcol _ IH]; simpl; [reflexivity|].
  now rewrite Hcol.
Qed.

Lemma space_column_candidates_idle (query : str) (cols : list str) :
  Forall (fun col => contains (lit " ") col = false) cols ->
  space_column_candidates u query cols = [].
Proof.
  unfold space_column_candidates.
  induction 1 as [|col rest Hcol _ IH]; simpl; [reflexivity|].
  now rewrite Hcol.
Qed.
End RepairFacts.

(** ** The schema loader *)

Lemma comprehension_ok {A B} (f : A -> Result B) (l : list A) (ys : list B) :
  comprehension f l = Ok ys -> Forall2 (fun x y => f x = Ok y) l ys.
Proof.
  revert ys. induction l as [|x t IH]; simpl; intros ys H.
  - injection H as <-. constructor.
  - destruct (f x) as [y|e] eqn:Hx; simpl in H; [|discriminate].
    destruct (comprehension f t) as [ys'|e]; simpl in H; [|discriminate].
    injection H as <-. constructor; [exact Hx|now apply IH].
Qed.

Lemma nth_fresh {A} (l : list A) (x d : A) :
  nth (List.length l) (l ++ [x]) d = x.
Proof. induction l; simpl; auto. Qed.

Lemma store_fresh {A} (l : list A) (x y : A) :
  store (l ++ [x]) (List.length l) y = l ++ [y].
Proof. induction l as [|a l IH]; simpl; [reflexivity|now rewrite IH]. Qed.

Lemma nth_older {A} (l : list A) (x y d : A) :
  nth (List.length l) ((l ++ [x]) ++ [y]) d = x.
Proof. induction l; simpl; auto. Qed.

Section LoaderFacts.
Variable u : UnicodeData.
Variable E : Engine.

(** A load opens one new connection, reads the file, and writes the frame
    with sanitised headers into the empty database behind that connection. *)
Lemma create_database_from_csv_steps (w : World E) (path name : str) :
  create_database_from_csv u E w path name =
  match read_csv E (files w) path with
  | Raise e =>
      (Build_World (files w) (connections w ++ [memory_db E]), Raise e)
  | Ok df =>
      match comprehension (clean_column_name u) (df_columns df) with
      | Raise e =>
          (Build_World (files w) (connections w ++ [memory_db E]), Raise e)
      | Ok cols =>
          (Build_World (files w)
             (connections w
                ++ [fst (to_sql E (set_columns df cols) name (memory_db E))]),
           match snd (to_sql E (set_columns df cols) name (memory_db E)) with
           | Raise e => Raise e
           | Ok _ => Ok (List.length (connections w))
           end)
      end
  end.
Proof.
  unfold create_database_from_csv, sqlite3_connect, database. cbn [files connections].
  destruct (read_csv E (files w) path) as [df|e]; [|reflexivity].
  destruct (comprehension _ _) as [cols|e]; [|reflexivity].
  rewrite nth_fresh.
  destruct (to_sql E _ name (memory_db E)) as [db [[]|e]];
    cbn [fst snd files connections]; now rewrite store_fresh.
Qed.

Lemma tolower_not_space (c : N) :
  c <> space -> is_ascii c = true -> ascii_tolower c <> space.
Proof. unfold not. char_cases. Qed.

Lemma lower_from_space_free (whole : str) (i : nat) (s : str) :
  space_free_lowering u -> ~ In space s -> ~ In space (lower_from u whole i s).
Proof.
  intros Hu. revert i. induction s as [|c t IH]; intros i Hs; simpl; [tauto|].
  intros Hin. apply in_app_or in Hin as [Hin|Hin].
  - unfold lower_char in Hin. destruct (is_ascii c) eqn:Hc.
    + destruct Hin as [Hin|[]].
      apply (tolower_not_space c); auto. intros ->. apply Hs. now left.
    + destruct (c =? 931)%N.
      * destruct Hin as [Hin|[]].
        destruct (ud_final_sigma u whole i); discriminate.
      * exact (Hu c Hc Hin).
  - apply (IH (S i)); [|exact Hin]. intros H. apply Hs. now right.
Qed.

Lemma scrub_space_free (name : str) : ~ In space (scrub u name).
Proof.
  rewrite scrub_map, map_map. intros Hin.
  apply in_map_iff in Hin as (c & Hc & _). revert Hc.
  unfold scrub_char, despace, underscore, space.
  destruct (N.eqb_spec c 32).
  - destruct (_ || _); discriminate.
  - destruct (_ || _); [congruence|discriminate].
Qed.

(** A sanitised name has no space in it. *)
Lemma clean_column_name_space_free (name out : str) :
  space_free_lowering u ->
  clean_column_name u name = Ok out ->
  contains (lit " ") out = false.
Proof.
  intros Hu. unfold clean_column_name.
  destruct (nth_error (scrub u name) 0) as [first|]; [|discriminate].
  intros H. injection H as <-.
  rewrite lit_space, contains_char.
  apply not_true_is_false. intros Hex.
  apply existsb_exists in Hex as (x & Hin & Hx).
  apply N.eqb_eq in Hx. subst x. revert Hin.
  apply lower_from_space_free; [exact Hu|].
  destruct (isdigit u first).
  - intros [Hin|[Hin|[Hin|[Hin|Hin]]]]; try discriminate.
    exact (scrub_space_free name Hin).
  - apply scrub_space_free.
Qed.

Lemma comprehension_space_free (raw cols : list str) :
  space_free_lowering u ->
  comprehension (clean_column_name u) raw = Ok cols ->
  Forall (fun col => contains (lit " ") col = false) cols.
Proof.
  intros Hu H. apply comprehension_ok in H.
  induction H as [|x y l l' Hxy _ IH]; constructor; [|exact IH].
  eapply clean_column_name_space_free; eauto.
Qed.
End LoaderFacts.

(** ** The sample collaborators meet the two assumptions *)

Lemma ucd_sample_space_free : space_free_lowering ucd_sample.
Proof.
  intros c Hc Hin. cbn [ud_tolower_full ucd_sample] in Hin.
  destruct (c =? 201)%N; [destruct Hin as [Hin|[]]; discriminate|].
  destruct (c =? 304)%N; [destruct Hin as [Hin|[Hin|[]]]; discriminate|].
  destruct Hin as [Hin|[]]. subst c. discriminate.
Qed.

Lemma minisql_reports_stored_columns : reports_stored_columns MiniSQL.engine.
Proof.
  intros df db db'. cbn [to_sql table_info_data MiniSQL.engine].
  unfold MiniSQL.to_sql.
  destruct (MiniSQL.first_duplicate (df_columns df)); [discriminate|].
  intros H. injection H as <-. reflexivity.
Qed.

Lemma join_embeds (sep : str) (items : list str) (x : str) :
  In x items -> exists pre post, join sep items = pre ++ x ++ post.
Proof.
  induction items as [|y rest IH]; intros Hin; [destruct Hin|].
  destruct Hin as [->|Hin].
  - exists []. destruct rest; simpl.
    + exists []. now rewrite app_nil_r.
    + eexists. reflexivity.
  - destruct (IH Hin) as (pre & post & Heq).
    destruct rest as [|z rest']; [destruct Hin|].
    exists (y ++ sep ++ pre), post.
    change (join sep (y :: z :: rest')) with (y ++ sep ++ join sep (z :: rest')).
    rewrite Heq. now rewrite <- !app_assoc.
Qed.

(** * The claims *)

(** C1.  When the first execution fails with a column-resolution error,
    [execute_query] tries, in this order and each on the original query
    text, the backtick rewrite, then one rewrite per stored column that
    contains a space (the double-quoted name replaced by its sanitised
    form), then one rewrite per stored column that contains both [raw] and
    [predict] in lower case (the placeholder ["raw predicted"] replaced by
    the double-quoted name); it returns the first success, and a later
    rewrite is executed only when every earlier one failed. *)
Theorem execute_query_repair_order
    (u : UnicodeData) (E : Engine) (conn c1 : Conn E) (query : str)
    (e : PyExc) :
  read_sql_query E query conn = (c1, Raise e) ->
  contains (lit "no such column") (lower u (exc_text e)) = true ->
  let cols := table_info_data E c1 in
  let spaced := filter (contains (lit " ")) cols in
  let fuzzy :=
    filter (fun col => contains (lit "raw") (lower u col)
                       && contains (lit "predict") (lower u col)) cols in
  let candidates :=
    replace [dquote] [backtick] query
    :: map (fun col => replace (quoted col) (sanitize u col) query) spaced
    ++ map (fun col => replace (quoted (lit "raw predicted")) (quoted col)
                         query) fuzzy in
  (forall col, In col spaced -> clean_column_name u col = Ok (sanitize u col))
  /\ execute_query u E conn query =
     match first_success E c1 candidates with
     | (c', Some df) => (c', Ok df)
     | (c', None) => (c', Raise (reraise e (Some cols)))
     end.
Proof.
  intros Hrun Hcol cols spaced fuzzy candidates. split.
  - intros col Hin. apply filter_In in Hin as [_ Hsp].
    apply clean_column_name_sanitize.
    eapply contains_nonempty; [|exact Hsp]. discriminate.
  - exact (execute_query_repair u E conn c1 query e Hrun Hcol).
Qed.

(** On a relation with the stored column [Raw Predicted Value] the query
    for [data."raw predicted"] fails, the backtick and space-column rewrites
    fail after it, and the fuzzy rewrite returns the column. *)
Lemma execute_query_repair_order_witness :
  execute_query ucd_sample MiniSQL.engine MiniSQL.predictions_db
    (MiniSQL.select (lit "data." ++ quoted (lit "raw predicted")))
  = (MiniSQL.predictions_db,
     Ok {| df_columns := [lit "Raw Predicted Value"];
           df_data := [[SFloat (lit "0.25")]; [SFloat (lit "0.75")]] |}).
Proof.
  destruct (execute_query_repair_order ucd_sample MiniSQL.engine
              MiniSQL.predictions_db MiniSQL.predictions_db
              (MiniSQL.select (lit "data." ++ quoted (lit "raw predicted")))
              (MiniSQL.database_error
                 (MiniSQL.select (lit "data." ++ quoted (lit "raw predicted")))
                 (lit "no such column: data.raw predicted")))
    as [_ H].
  - vm_compute. reflexivity.
  - vm_compute. reflexivity.
  - rewrite H. vm_compute. reflexivity.
Defined.

(** C2, as the claim states it, fails: the empty name makes the index
    access at line 47 raise, and U+00E9 is alphanumeric and its own lower
    case, so it comes back unchanged and is not in [[a-z0-9_]]. *)
Lemma clean_column_name_not_always_identifier :
  clean_column_name ucd_sample []
  = Raise (IndexError (lit "string index out of range"))
  /\ clean_column_name ucd_sample [233%N] = Ok [233%N]
  /\ matches_identifier [233%N] = false.
Proof. repeat split. Qed.

(** C2, amended.  For every non-empty name none of whose characters is
    both outside ASCII and alphanumeric, [clean_column_name] returns a
    non-empty string over [[a-z0-9_]] that does not start with a digit; it
    is the lower-cased scrubbed name, behind the prefix [col_] when the
    name starts with a digit. *)
Theorem clean_column_name_plain_identifier (u : UnicodeData) (name : str) :
  name <> [] ->
  plain_name u name = true ->
  let out := (if starts_with_digit name then lit "col_" else [])
             ++ map ascii_tolower (scrub u name) in
  clean_column_name u name = Ok out /\
  matches_identifier out = true /\
  starts_with_digit out = false.
Proof.
  intros Hne Hplain out.
  assert (Hout : out = map ascii_tolower
                         ((if starts_with_digit name then lit "col_" else [])
                            ++ scrub u name))
    by (subst out; rewrite map_app; now destruct (starts_with_digit name)).
  rewrite Hout. now apply clean_column_name_plain.
Qed.

(** [Price], a space, a bracket, the euro sign, a bracket. *)
Lemma clean_column_name_plain_identifier_witness :
  clean_column_name ucd_sample (lit "Price (" ++ [8364%N] ++ lit ")")
  = Ok (lit "price____")
  /\ matches_identifier (lit "price____") = true
  /\ starts_with_digit (lit "price____") = false.
Proof.
  apply (clean_column_name_plain_identifier ucd_sample
           (lit "Price (" ++ [8364%N] ++ lit ")")).
  - discriminate.
  - reflexivity.
Defined.

(** C3.  When the first execution fails with an error whose text does not
    mention [no such column], [execute_query] makes no repair attempt, and
    what it raises is the [UnboundLocalError] of line 106 for the local
    [actual_columns], not an exception built from the engine's error. *)
Theorem execute_query_other_error_unbound
    (u : UnicodeData) (E : Engine) (conn c1 : Conn E) (query : str)
    (e : PyExc) :
  read_sql_query E query conn = (c1, Raise e) ->
  contains (lit "no such column") (lower u (exc_text e)) = false ->
  execute_query u E conn query
  = (c1, Raise (UnboundLocalError (lit "actual_columns")))
  /\ reraise e None = UnboundLocalError (lit "actual_columns").
Proof.
  intros Hrun Hcol. split; [|reflexivity].
  exact (execute_query_other_error u E conn c1 query e Hrun Hcol).
Qed.

(** A misspelt keyword: the engine reports a syntax error, and the text of
    what [execute_query] raises does not contain that report. *)
Lemma execute_query_other_error_unbound_witness :
  execute_query ucd_sample MiniSQL.engine MiniSQL.titanic_db (lit "SELEC 1")
  = (MiniSQL.titanic_db, Raise (UnboundLocalError (lit "actual_columns")))
  /\ contains
       (exc_text (MiniSQL.database_error (lit "SELEC 1") (lit "syntax error")))
       (exc_text (UnboundLocalError (lit "actual_columns"))) = false.
Proof.
  split; [|reflexivity].
  apply (execute_query_other_error_unbound ucd_sample MiniSQL.engine
           MiniSQL.titanic_db MiniSQL.titanic_db (lit "SELEC 1")
           (MiniSQL.database_error (lit "SELEC 1") (lit "syntax error"))).
  - vm_compute. reflexivity.
  - vm_compute. reflexivity.
Defined.

(** C4.  On the relation loaded from the header [Passenger Class] the
    stored column is [passenger_class], which has no space, so the second
    loop executes nothing, for [SELECT "Passenger Class" FROM data] as for
    every other query, and the quoted raw name is never replaced by the
    sanitised one.  [execute_query] only passes on the engine's answer to
    the query as written (sqlite3 reads an unresolved double-quoted name as
    a string literal and answers with that text in every row) or, after a
    column-resolution failure, to its backtick form, or raises. *)
Theorem passenger_class_query_not_repaired
    (u : UnicodeData) (E : Engine) (conn : Conn E) (query : str) :
  table_info_data E (fst (read_sql_query E query conn))
  = [lit "passenger_class"] ->
  clean_column_name u (lit "Passenger Class") = Ok (lit "passenger_class")
  /\ (forall c mq, second_attempt u E query [lit "passenger_class"] c mq
                   = (c, mq, Ok None))
  /\ execute_query u E conn query
     = match read_sql_query E query conn with
       | (c1, Ok df) => (c1, Ok df)
       | (c1, Raise e) =>
           if contains (lit "no such column") (lower u (exc_text e)) then
             match read_sql_query E (replace [dquote] [backtick] query) c1 with
             | (c2, Ok df) => (c2, Ok df)
             | (c2, Raise _) =>
                 (c2, Raise (reraise e (Some [lit "passenger_class"])))
             end
           else (c1, Raise (UnboundLocalError (lit "actual_columns")))
       end.
Proof.
  intros Hcols. split; [reflexivity|]. split; [reflexivity|].
  destruct (read_sql_query E query conn) as [c1 [df|e]] eqn:Hrun;
    cbn [fst] in Hcols.
  - unfold execute_query. now rewrite Hrun.
  - destruct (contains (lit "no such column") (lower u (exc_text e))) eqn:Hcol.
    + rewrite (execute_query_repair u E conn c1 query e Hrun Hcol), Hcols.
      cbv [repair_candidates quote_style_candidate]. cbn [first_success].
      destruct (read_sql_query E (replace [dquote] [backtick] query) c1)
        as [c2 [df|e']]; reflexivity.
    + exact (execute_query_other_error u E conn c1 query e Hrun Hcol).
Qed.

(** The loader's relation for the one-column file.  The claim's query comes
    back as the quoted text in every row; the qualified form of the quoted
    raw name, which the engine rejects, ends in the final failure; the
    sanitised queries return the column. *)
Lemma passenger_class_query_not_repaired_witness :
  create_database_from_csv ucd_sample MiniSQL.engine MiniSQL.titanic_world
    (lit "titanic.csv") (lit "data")
  = (Build_World (E := MiniSQL.engine) MiniSQL.titanic_files
       [MiniSQL.titanic_db], Ok 0)
  /\ execute_query ucd_sample MiniSQL.engine MiniSQL.titanic_db
       (MiniSQL.select (quoted (lit "Passenger Class")))
     = (MiniSQL.titanic_db,
        Ok {| df_columns := [quoted (lit "Passenger Class")];
              df_data := [[SText (lit "Passenger Class")];
                          [SText (lit "Passenger Class")];
                          [SText (lit "Passenger Class")]] |})
  /\ execute_query ucd_sample MiniSQL.engine MiniSQL.titanic_db
       (MiniSQL.select (lit "data." ++ quoted (lit "Passenger Class")))
     = (MiniSQL.titanic_db,
        Raise (reraise
                 (MiniSQL.database_error
                    (MiniSQL.select
                       (lit "data." ++ quoted (lit "Passenger Class")))
                    (lit "no such column: data.Passenger Class"))
                 (Some [lit "passenger_class"])))
  /\ execute_query ucd_sample MiniSQL.engine MiniSQL.titanic_db
       (MiniSQL.select (lit "passenger_class"))
     = (MiniSQL.titanic_db,
        Ok {| df_columns := [lit "passenger_class"];
              df_data := [[SInt 1]; [SInt 3]; [SInt 2]] |})
  /\ execute_query ucd_sample MiniSQL.engine MiniSQL.titanic_db
       (MiniSQL.select (lit "data.passenger_class"))
     = (MiniSQL.titanic_db,
        Ok {| df_columns := [lit "passenger_class"];
              df_data := [[SInt 1]; [SInt 3]; [SInt 2]] |}).
Proof.
  split; [vm_compute; reflexivity|].
  split; [|split; [|split; vm_compute; reflexivity]].
  - etransitivity;
      [exact (proj2 (proj2 (passenger_class_query_not_repaired ucd_sample
                              MiniSQL.engine MiniSQL.titanic_db
                              (MiniSQL.select (quoted (lit "Passenger Class")))
                              ltac:(vm_compute; reflexivity))))
      |vm_compute; reflexivity].
  - etransitivity;
      [exact (proj2 (proj2 (passenger_class_query_not_repaired ucd_sample
                              MiniSQL.engine MiniSQL.titanic_db
                              (MiniSQL.select
                                 (lit "data." ++ quoted (lit "Passenger Class")))
                              ltac:(vm_compute; reflexivity))))
      |vm_compute; reflexivity].
Defined.

(** C5.  When the first execution fails with a column-resolution error and
    every repair candidate fails after it, [execute_query] raises an
    exception whose message is [Query error: ] followed by the text of the
    original error, a blank line, and [Available columns: ] followed by all
    the stored column names of [data] joined by commas; the message contains
    the original error text and every column name. *)
Theorem execute_query_final_failure
    (u : UnicodeData) (E : Engine) (conn c1 : Conn E) (query : str)
    (e : PyExc) :
  read_sql_query E query conn = (c1, Raise e) ->
  contains (lit "no such column") (lower u (exc_text e)) = true ->
  snd (first_success E c1
         (repair_candidates u query (table_info_data E c1))) = None ->
  let cols := table_info_data E c1 in
  let msg := lit "Query error: " ++ exc_text e ++ [10%N; 10%N]
             ++ lit "Available columns: " ++ join (lit ", ") cols in
  snd (execute_query u E conn query) = Raise (PlainException msg)
  /\ contains (exc_text e) msg = true
  /\ contains (join (lit ", ") cols) msg = true
  /\ Forall (fun col => contains col msg = true) cols.
Proof.
  intros Hrun Hcol Hfail cols msg. split; [|split; [|split]].
  - rewrite (execute_query_repair u E conn c1 query e Hrun Hcol).
    destruct (first_success E c1 _) as [c' [df|]]; [discriminate|reflexivity].
  - apply contains_infix.
  - replace msg
      with ((lit "Query error: " ++ exc_text e ++ [10%N; 10%N]
             ++ lit "Available columns: ") ++ join (lit ", ") cols ++ [])
      by (subst msg; rewrite app_nil_r, <- !app_assoc; reflexivity).
    apply contains_infix.
  - apply Forall_forall. intros col Hin.
    destruct (join_embeds (lit ", ") cols col Hin) as (pre & post & Heq).
    replace msg
      with ((lit "Query error: " ++ exc_text e ++ [10%N; 10%N]
             ++ lit "Available columns: " ++ pre) ++ col ++ post)
      by (subst msg; rewrite Heq, <- !app_assoc; reflexivity).
    apply contains_infix.
Qed.

Lemma execute_query_final_failure_witness :
  snd (execute_query ucd_sample MiniSQL.engine MiniSQL.titanic_db
         (MiniSQL.select (lit "fare")))
  = Raise (PlainException
             (lit "Query error: Execution failed on sql 'SELECT fare FROM data': no such column: fare"
              ++ [10%N; 10%N] ++ lit "Available columns: passenger_class")).
Proof.
  refine (proj1 (execute_query_final_failure ucd_sample MiniSQL.engine
                   MiniSQL.titanic_db MiniSQL.titanic_db
                   (MiniSQL.select (lit "fare"))
                   (MiniSQL.database_error (MiniSQL.select (lit "fare"))
                      (lit "no such column: fare")) _ _ _));
    vm_compute; reflexivity.
Defined.

(** C6, as the claim states it, fails: the query text is handed to the
    engine as it is, and a statement that writes is executed before pandas
    fails on its missing result set; the rows of [data] are gone after the
    call. *)
Lemma execute_query_can_mutate :
  execute_query ucd_sample MiniSQL.engine MiniSQL.titanic_db
    (lit "DELETE FROM data")
  = ([{| MiniSQL.t_name := lit "data";
         MiniSQL.t_columns := [lit "passenger_class"];
         MiniSQL.t_rows := [] |}],
     Raise (UnboundLocalError (lit "actual_columns")))
  /\ fst (execute_query ucd_sample MiniSQL.engine MiniSQL.titanic_db
            (lit "DELETE FROM data")) <> MiniSQL.titanic_db.
Proof. split; [vm_compute; reflexivity|vm_compute; discriminate]. Qed.

(** C6, amended.  [execute_query] writes nothing of its own: when the
    engine leaves the relation as it is on the query and on each of its
    repair rewrites, the relation is the same after the call as before it,
    whether the call returns or raises. *)
Theorem execute_query_frame
    (u : UnicodeData) (E : Engine) (conn : Conn E) (query : str) :
  (forall q,
      In q (query :: repair_candidates u query (table_info_data E conn)) ->
      fst (read_sql_query E q conn) = conn) ->
  fst (execute_query u E conn query) = conn.
Proof.
  intros Hread.
  pose proof (Hread query (or_introl eq_refl)) as H0.
  destruct (read_sql_query E query conn) as [c1 [df|e]] eqn:Hrun;
    cbn [fst] in H0; subst c1.
  - unfold execute_query. now rewrite Hrun.
  - destruct (contains (lit "no such column") (lower u (exc_text e))) eqn:Hcol.
    + rewrite (execute_query_repair u E conn conn query e Hrun Hcol).
      pose proof (first_success_frame E conn
                    (repair_candidates u query (table_info_data E conn))) as Hf.
      destruct (first_success E conn _) as [c' [df|]]; cbn [fst] in *;
        apply Hf; intros q Hq; apply Hread; now right.
    + now rewrite (execute_query_other_error u E conn conn query e Hrun Hcol).
Qed.

Lemma execute_query_frame_witness :
  fst (execute_query ucd_sample MiniSQL.engine MiniSQL.titanic_db
         (MiniSQL.select (quoted (lit "Passenger Class"))))
  = MiniSQL.titanic_db.
Proof.
  apply (execute_query_frame ucd_sample MiniSQL.engine MiniSQL.titanic_db).
  intros q Hq. vm_compute in Hq.
  destruct Hq as [<-|[<-|[]]]; vm_compute; reflexivity.
Defined.

(** C7.  Two loads of the same path, the second starting where the first
    ended: the first leaves the files as they were, both compute the same
    raw-to-sanitised column mapping, both fail with the same error or both
    succeed; when they succeed the two connections are distinct, the
    relation behind the second equals the relation behind the first, and
    the first is untouched by the second load. *)
Theorem load_twice_same_relation
    (u : UnicodeData) (E : Engine) (w : World E) (path name : str) :
  let load1 := create_database_from_csv u E w path name in
  let load2 := create_database_from_csv u E (fst load1) path name in
  files (fst load1) = files w /\
  files (fst load2) = files w /\
  column_mapping u E (fst load1) path = column_mapping u E w path /\
  match snd load1, snd load2 with
  | Ok conn1, Ok conn2 =>
      conn1 <> conn2 /\
      database E (fst load2) conn2 = database E (fst load1) conn1 /\
      database E (fst load2) conn1 = database E (fst load1) conn1
  | Raise e1, Raise e2 => e1 = e2
  | _, _ => False
  end.
Proof.
  intros load1 load2.
  assert (Hfiles : files (fst load1) = files w).
  { subst load1. rewrite create_database_from_csv_steps.
    destruct (read_csv E (files w) path); [|reflexivity].
    destruct (comprehension _ _); reflexivity. }
  assert (Hfiles2 : files (fst load2) = files w).
  { subst load2. rewrite create_database_from_csv_steps, Hfiles.
    destruct (read_csv E (files w) path); [|reflexivity].
    destruct (comprehension _ _); reflexivity. }
  split; [exact Hfiles|]. split; [exact Hfiles2|].
  split; [unfold column_mapping; now rewrite Hfiles|].
  subst load2. rewrite create_database_from_csv_steps, Hfiles.
  subst load1. rewrite create_database_from_csv_steps.
  destruct (read_csv E (files w) path) as [df|e]; [|reflexivity].
  destruct (comprehension _ _) as [cols|e]; [|reflexivity].
  cbn [fst snd connections].
  destruct (to_sql E (set_columns df cols) name (memory_db E))
    as [db [[]|e]]; cbn [fst snd]; [|reflexivity].
  unfold database. cbn [connections].
  rewrite length_app. cbn [List.length].
  replace (List.length (connections w) + 1)
    with (List.length (connections w ++ [db]))
    by (rewrite length_app; reflexivity).
  rewrite nth_fresh, nth_older, nth_fresh.
  repeat split. rewrite length_app. cbn [List.length]. lia.
Qed.

(** C8.  The stored column names of a relation made by
    [create_database_from_csv] are the headers of the file passed through
    [clean_column_name], none of them contains a space, and so the second
    loop of [execute_query] on that relation executes nothing and leaves
    [modified_query] as it found it, for every query. *)
Theorem loaded_columns_space_free
    (u : UnicodeData) (E : Engine) (w w' : World E) (path : str)
    (conn : nat) :
  space_free_lowering u ->
  reports_stored_columns E ->
  create_database_from_csv u E w path (lit "data") = (w', Ok conn) ->
  let cols := table_info_data E (database E w' conn) in
  (exists df,
      read_csv E (files w) path = Ok df /\
      Forall2 (fun raw col => clean_column_name u raw = Ok col)
        (df_columns df) cols) /\
  Forall (fun col => contains (lit " ") col = false) cols /\
  forall query db modified_query,
    second_attempt u E query cols db modified_query
    = (db, modified_query, Ok None).
Proof.
  intros Hu HE Hload cols.
  rewrite create_database_from_csv_steps in Hload.
  destruct (read_csv E (files w) path) as [df|e]; [|discriminate].
  destruct (comprehension (clean_column_name u) (df_columns df))
    as [cleaned|e] eqn:Hclean; [|discriminate].
  destruct (to_sql E (set_columns df cleaned) (lit "data") (memory_db E))
    as [db [[]|e]] eqn:Hsql; cbn [fst snd] in Hload; [|discriminate].
  injection Hload as <- <-.
  assert (Hcols : cols = cleaned).
  { subst cols. unfold database. cbn [connections].
    rewrite nth_fresh. exact (HE _ _ _ Hsql). }
  rewrite Hcols.
  pose proof (comprehension_space_free u _ _ Hu Hclean) as Hfree.
  split; [|split].
  - exists df. split; [reflexivity|]. now apply comprehension_ok.
  - exact Hfree.
  - intros query db' mq. now apply second_attempt_idle.
Qed.

Lemma loaded_columns_space_free_witness :
  Forall (fun col => contains (lit " ") col = false)
    (table_info_data MiniSQL.engine MiniSQL.titanic_db)
  /\ forall query db modified_query,
       second_attempt ucd_sample MiniSQL.engine query
         (table_info_data MiniSQL.engine MiniSQL.titanic_db) db modified_query
       = (db, modified_query, Ok None).
Proof.
  refine (proj2 (loaded_columns_space_free ucd_sample MiniSQL.engine
                   MiniSQL.titanic_world
                   (Build_World (E := MiniSQL.engine) MiniSQL.titanic_files
                      [MiniSQL.titanic_db])
                   (lit "titanic.csv") 0
                   ucd_sample_space_free minisql_reports_stored_columns _)).
  vm_compute. reflexivity.
Defined.

(** C9.  The scrubbed name has the length of the input, because each
    character is kept or replaced and none is dropped; so on a non-empty
    name the index access at line 47 succeeds and [clean_column_name]
    returns, and it raises [IndexError] on the empty name and on no other. *)
Theorem clean_column_name_total (u : UnicodeData) (name : str) :
  List.length (scrub u name) = List.length name /\
  (name <> [] ->
   nth_error (scrub u name) 0 <> None /\
   exists out, clean_column_name u name = Ok out) /\
  (forall e, clean_column_name u name = Raise e ->
             name = [] /\ e = IndexError (lit "string index out of range")).
Proof.
  split; [apply scrub_length|]. split.
  - intros Hne. rewrite clean_column_name_sanitize by assumption.
    split; [|eexists; reflexivity].
    rewrite scrub_map. destruct name; [congruence|discriminate].
  - intros e He. destruct name as [|c t].
    + rewrite clean_column_name_empty in He. now injection He as <-.
    + rewrite clean_column_name_sanitize in He by discriminate. discriminate.
Qed.

Lemma clean_column_name_total_witness :
  nth_error (scrub ucd_sample (lit "!?")) 0 <> None /\
  exists out, clean_column_name ucd_sample (lit "!?") = Ok out.
Proof.
  apply (proj1 (proj2 (clean_column_name_total ucd_sample (lit "!?")))).
  discriminate.
Defined.

(** C10, as the claim states it, fails: U+0130 is alphanumeric and lowers
    to [i] followed by U+0307, a combining mark that is not alphanumeric; a
    second pass turns the mark into an underscore. *)
Lemma clean_column_name_not_idempotent :
  clean_column_name ucd_sample [304%N] = Ok [105%N; 775%N]
  /\ bind (clean_column_name ucd_sample [304%N]) (clean_column_name ucd_sample)
     = Ok [105%N; 95%N]
  /\ bind (clean_column_name ucd_sample [304%N]) (clean_column_name ucd_sample)
     <> clean_column_name ucd_sample [304%N].
Proof. repeat split. discriminate. Qed.

(** C10, amended.  [clean_column_name] is idempotent on every non-empty
    name each of whose characters is ASCII, or not alphanumeric, or lowers,
    wherever it stands, to a non-empty run of characters that are
    alphanumeric and their own lower case, with a digit among them only if
    the character is a digit: cleaning the cleaned name returns it
    unchanged.  U+00E9 is such a character, U+0130 is not. *)
Theorem clean_column_name_idempotent_tame (u : UnicodeData) (name : str) :
  name <> [] ->
  tame_name u name \/ plain_name u name = true ->
  bind (clean_column_name u name) (clean_column_name u)
  = clean_column_name u name.
Proof.
  intros Hne Hdom.
  assert (Htame : tame_name u name)
    by (destruct Hdom as [H|H]; [exact H|now apply plain_name_tame]).
  destruct (clean_column_name_tame u name Hne Htame) as (out & Hout & Hfix).
  rewrite Hout. exact Hfix.
Qed.

(** [Caf], E-acute, a space, a bracket, the euro sign, a bracket. *)
Lemma clean_column_name_idempotent_tame_witness :
  bind (clean_column_name ucd_sample
          (lit "Caf" ++ [233%N] ++ lit " (" ++ [8364%N] ++ lit ")"))
    (clean_column_name ucd_sample)
  = clean_column_name ucd_sample
      (lit "Caf" ++ [233%N] ++ lit " (" ++ [8364%N] ++ lit ")").
Proof.
  apply (clean_column_name_idempotent_tame ucd_sample
           (lit "Caf" ++ [233%N] ++ lit " (" ++ [8364%N] ++ lit ")")).
  - discriminate.
  - left. unfold tame_name.
    assert (He : lowers_cleanly ucd_sample 233%N).
    { intros whole i. split; [discriminate|].
      constructor; [|constructor].
      split; [split|]; [reflexivity|intros w j; reflexivity|discriminate]. }
    repeat (constructor; [first [left; reflexivity
                                |right; left; reflexivity
                                |right; right; exact He]|]).
    constructor.
Defined.

(** * Further properties *)

(** ** Column lookup *)

Lemma eqb_str_eq (a b : str) : eqb_str a b = true <-> a = b.
Proof.
  revert b. induction a as [|x a IH]; destruct b as [|y b]; simpl;
    try (split; [discriminate|congruence]); [tauto|].
  rewrite andb_true_iff, N.eqb_eq, IH. split.
  - intros [-> ->]. reflexivity.
  - intros H. injection H as -> ->. auto.
Qed.

Lemma eqb_str_neq (a b : str) : eqb_str a b = false <-> a <> b.
Proof.
  rewrite <- eqb_str_eq. destruct (eqb_str a b); split; congruence.
Qed.

(** [find_closest_column] returns the first column that equals the problem
    name up to case, with every column before it different up to case; it
    returns [None] exactly when no column matches. *)
Theorem find_closest_column_first_match
    (u : UnicodeData) (problem_col : str) (actual_columns : list str) :
  match find_closest_column u problem_col actual_columns with
  | Some col =>
      exists before after,
        actual_columns = before ++ col :: after /\
        lower u col = lower u problem_col /\
        Forall (fun c => lower u c <> lower u problem_col) before
  | None =>
      Forall (fun c => lower u c <> lower u problem_col) actual_columns
  end.
Proof.
  induction actual_columns as [|col rest IH]; simpl; [constructor|].
  destruct (eqb_str (lower u col) (lower u problem_col)) eqn:Heq.
  - exists [], rest. apply eqb_str_eq in Heq. repeat split; auto.
  - apply eqb_str_neq in Heq.
    destruct (find_closest_column u problem_col rest) as [found|].
    + destruct IH as (before & after & -> & Hl & Hb).
      exists (col :: before), after. repeat split; auto.
    + constructor; assumption.
Qed.

Lemma identifier_lower_fixed (u : UnicodeData) (col : str) :
  matches_identifier col = true -> lower u col = col.
Proof.
  intros Hm. apply matches_identifier_iff in Hm as [_ Hall].
  assert (H : all_ascii col = true /\ map ascii_tolower col = col).
  { induction col as [|c t IH]; [split; reflexivity|].
    simpl in Hall. apply andb_true_iff in Hall as [Hc Ht].
    destruct (IH Ht) as [IH1 IH2].
    destruct (ident_char_fixed u c Hc) as (Ha & _ & Hl & _).
    simpl. now rewrite Ha, Hl, IH1, IH2. }
  destruct H as [Ha Hl]. now rewrite lower_ascii.
Qed.

(** On columns that are identifiers over [[a-z0-9_]], as the sanitiser
    makes them, an ASCII problem name is found exactly when its lower-cased
    form is one of the columns, and that form is what is returned. *)
Theorem find_closest_column_sanitized
    (u : UnicodeData) (problem_col : str) (actual_columns : list str) :
  all_ascii problem_col = true ->
  Forall (fun col => matches_identifier col = true) actual_columns ->
  (In (map ascii_tolower problem_col) actual_columns ->
   find_closest_column u problem_col actual_columns
   = Some (map ascii_tolower problem_col)) /\
  (~ In (map ascii_tolower problem_col) actual_columns ->
   find_closest_column u problem_col actual_columns = None).
Proof.
  intros Hp Hcols. rewrite <- (lower_ascii u problem_col Hp).
  induction Hcols as [|col rest Hcol _ IH]; simpl.
  - split; [intros []|reflexivity].
  - rewrite (identifier_lower_fixed u col Hcol).
    destruct (eqb_str col (lower u problem_col)) eqn:Heq.
    + apply eqb_str_eq in Heq. subst col. split; [reflexivity|].
      intros H. exfalso. apply H. now left.
    + apply eqb_str_neq in Heq. destruct IH as [IH1 IH2]. split.
      * intros [H|H]; [congruence|now apply IH1].
      * intros H. apply IH2. intros H'. apply H. now right.
Qed.

Lemma find_closest_column_sanitized_witness :
  find_closest_column ucd_sample (lit "Passenger_Class")
    [lit "name"; lit "passenger_class"]
  = Some (lit "passenger_class").
Proof.
  apply (find_closest_column_sanitized ucd_sample (lit "Passenger_Class")
           [lit "name"; lit "passenger_class"]).
  - reflexivity.
  - repeat constructor.
  - right. left. reflexivity.
Defined.

(** ** Stripping and splitting *)

Lemma lstrip_decompose (s : str) :
  exists p, s = p ++ lstrip s /\ forallb isspace p = true.
Proof.
  induction s as [|c t (p & Hp & Hsp)]; simpl.
  - exists []. split; reflexivity.
  - destruct (isspace c) eqn:Hc.
    + exists (c :: p). simpl. rewrite Hc, Hsp. split; [now f_equal|reflexivity].
    + exists []. split; reflexivity.
Qed.

Lemma lstrip_head (s : str) (c : N) (t : str) :
  lstrip s = c :: t -> isspace c = false.
Proof.
  induction s as [|a s IH]; simpl; [discriminate|].
  destruct (isspace a) eqn:Ha; [exact IH|].
  intros H. injection H as <- _. exact Ha.
Qed.

Lemma lstrip_fixed (s : str) :
  match s with [] => True | c :: _ => isspace c = false end -> lstrip s = s.
Proof. destruct s as [|c t]; simpl; [reflexivity|]. now intros ->. Qed.

Lemma rstrip_decompose (s : str) :
  exists q, s = rstrip s ++ q /\ forallb isspace q = true.
Proof.
  unfold rstrip. destruct (lstrip_decompose (rev s)) as (p & Hp & Hsp).
  exists (rev p). split.
  - rewrite <- rev_app_distr, <- Hp. now rewrite rev_involutive.
  - rewrite forallb_forall in *. intros x Hx. apply Hsp. now apply in_rev.
Qed.

Lemma rstrip_last (s : str) (d : N) :
  rstrip s <> [] -> isspace (last (rstrip s) d) = false.
Proof.
  unfold rstrip. destruct (lstrip (rev s)) as [|c t] eqn:Hl;
    [intros H; now elim H|].
  intros _. simpl. rewrite last_last. exact (lstrip_head _ _ _ Hl).
Qed.

Lemma strip_infix (s : str) : exists p q, s = p ++ strip s ++ q.
Proof.
  unfold strip. destruct (lstrip_decompose s) as (p & Hp & _).
  destruct (rstrip_decompose (lstrip s)) as (q & Hq & _).
  exists p, q. now rewrite <- Hq.
Qed.

(** What [strip] returns neither starts nor ends with white space. *)
Lemma strip_ends (s : str) (c : N) (t : str) :
  strip s = c :: t ->
  isspace c = false /\ isspace (last (strip s) c) = false.
Proof.
  intros Hs. split.
  - unfold strip in Hs.
    destruct (rstrip_decompose (lstrip s)) as (q & Hq & _).
    rewrite Hs in Hq. simpl in Hq. exact (lstrip_head _ _ _ Hq).
  - apply rstrip_last. unfold strip in Hs. rewrite Hs. discriminate.
Qed.

Lemma strip_idempotent (s : str) : strip (strip s) = strip s.
Proof.
  destruct (strip s) as [|c t] eqn:Hs; [reflexivity|].
  destruct (strip_ends s c t Hs) as [Hc Hlast]. rewrite Hs in Hlast.
  unfold strip. rewrite (lstrip_fixed (c :: t)) by exact Hc.
  unfold rstrip.
  assert (Hrev : rev (c :: t) = last (c :: t) c :: rev (removelast (c :: t))).
  { rewrite (app_removelast_last c (l := c :: t)) at 1 by discriminate.
    now rewrite rev_app_distr. }
  rewrite lstrip_fixed, rev_involutive; [reflexivity|].
  rewrite Hrev. exact Hlast.
Qed.

Lemma starts_with_inv (p s : str) :
  starts_with p s = true -> exists post, s = p ++ post.
Proof.
  revert s. induction p as [|a p IH]; intros s H; [now exists s|].
  destruct s as [|b s]; [discriminate|]. simpl in H.
  apply andb_true_iff in H as [Hab Hp]. apply N.eqb_eq in Hab. subst b.
  destruct (IH s Hp) as (post & ->). now exists post.
Qed.

Lemma contains_inv (sub s : str) :
  contains sub s = true -> exists pre post, s = pre ++ sub ++ post.
Proof.
  induction s as [|c t IH]; simpl; rewrite orb_true_iff.
  - intros [H|H]; [|discriminate].
    destruct (starts_with_inv _ _ H) as (post & ->). now exists [], post.
  - intros [H|H].
    + destruct (starts_with_inv _ _ H) as (post & ->). now exists [], post.
    + destruct (IH H) as (pre & post & ->). now exists (c :: pre), post.
Qed.

Lemma contains_within (sub p s q : str) :
  contains sub s = true -> contains sub (p ++ s ++ q) = true.
Proof.
  intros H. destruct (contains_inv _ _ H) as (pre & post & ->).
  replace (p ++ (pre ++ sub ++ post) ++ q)
    with ((p ++ pre) ++ sub ++ (post ++ q))
    by (now rewrite <- !app_assoc).
  apply contains_infix.
Qed.

Lemma split_from_nonempty (sep : str) (k : nat) (s : str) :
  split_from sep k s <> [].
Proof.
  revert k. induction s as [|c t IH]; intros k; simpl; [discriminate|].
  destruct k; [|apply IH].
  destruct (starts_with sep (c :: t)); [discriminate|].
  destruct (split_from sep 0 t); discriminate.
Qed.

Lemma split_from_skip (sep x s : str) :
  split_from sep (List.length x) (x ++ s) = split_from sep 0 s.
Proof.
  induction x as [|c x IH]; [reflexivity|]. simpl. exact IH.
Qed.

(** The separator occurs exactly when splitting yields more than one piece. *)
Lemma split_from_occurs (sep s : str) :
  sep <> [] ->
  contains sep s = true -> 1 < List.length (split_from sep 0 s).
Proof.
  intros Hsep. induction s as [|c t IH]; simpl.
  - destruct sep; [congruence|discriminate].
  - destruct (starts_with sep (c :: t)) eqn:Hst; simpl.
    + intros _. pose proof (split_from_nonempty sep (List.length sep - 1) t).
      destruct (split_from sep (List.length sep - 1) t); [congruence|simpl; lia].
    + intros H. specialize (IH H).
      destruct (split_from sep 0 t); simpl in *; lia.
Qed.

Lemma split_from_absent (sep s : str) :
  sep <> [] -> contains sep s = false -> split_from sep 0 s = [s].
Proof.
  intros Hsep. induction s as [|c t IH]; simpl; [reflexivity|].
  intros H. apply orb_false_iff in H as [Hst Hc].
  rewrite Hst, (IH Hc). reflexivity.
Qed.

(** A stretch without the separator's first character, followed by the
    separator, is the first piece. *)
Lemma split_from_first_piece (h : N) (sep' body rest : str) :
  ~ In h body ->
  split_from (h :: sep') 0 (body ++ (h :: sep') ++ rest)
  = body :: split_from (h :: sep') 0 rest.
Proof.
  intros Hb. induction body as [|c b IH].
  - change ([] ++ (h :: sep') ++ rest) with (h :: (sep' ++ rest)).
    cbn [split_from].
    change (h :: sep' ++ rest) with ((h :: sep') ++ rest).
    rewrite starts_with_app.
    replace (List.length (h :: sep') - 1) with (List.length sep')
      by (simpl; lia).
    now rewrite split_from_skip.
  - change ((c :: b) ++ (h :: sep') ++ rest)
      with (c :: (b ++ (h :: sep') ++ rest)).
    cbn [split_from starts_with].
    destruct (N.eqb_spec h c) as [->|Hne]; [exfalso; apply Hb; now left|].
    cbn [andb]. rewrite IH; [reflexivity|]. intros H. apply Hb. now right.
Qed.

(** ** Response clean-up *)

Lemma contains_skip_prefix (h : N) (sep' body x : str) :
  ~ In h body ->
  contains (h :: sep') (body ++ x) = contains (h :: sep') x.
Proof.
  intros Hb. induction body as [|c b IH]; [reflexivity|].
  change ((c :: b) ++ x) with (c :: (b ++ x)). cbn [contains starts_with].
  destruct (N.eqb_spec h c) as [->|_]; [exfalso; apply Hb; now left|].
  cbn [andb orb]. apply IH. intros H. apply Hb. now right.
Qed.

Lemma sql_fence_cons : sql_fence = backtick :: lit "``sql".
Proof. reflexivity. Qed.

Lemma fence_cons : fence = backtick :: lit "``".
Proof. reflexivity. Qed.

Section ExtractFacts.
Variable u : UnicodeData.
Variable uu : UpperData.

Lemma extract_plain (response : str) :
  contains sql_fence response = false ->
  extract_sql_from_response u uu response = Ok (strip response).
Proof.
  intros H. unfold extract_sql_from_response. rewrite H. cbn [bind].
  now destruct (_ || _).
Qed.

Lemma extract_fenced (response : str) :
  contains sql_fence response = true ->
  exists before part more first others,
    split_from sql_fence 0 response = before :: part :: more /\
    split_from fence 0 part = first :: others /\
    extract_sql_from_response u uu response = Ok (strip first).
Proof.
  intros H. unfold extract_sql_from_response. rewrite H.
  pose proof (split_from_occurs sql_fence response) as Hlen.
  rewrite sql_fence_cons in Hlen at 1. specialize (Hlen ltac:(discriminate) H).
  change (split sql_fence response) with (Ok (split_from sql_fence 0 response)).
  destruct (split_from sql_fence 0 response) as [|before [|part more]];
    try (simpl in Hlen; lia).
  cbn [bind List.length Nat.ltb Nat.leb index nth_error].
  change (split fence part) with (Ok (split_from fence 0 part)).
  pose proof (split_from_nonempty fence 0 part) as Hne.
  destruct (split_from fence 0 part) as [|first others] eqn:Hinner;
    [congruence|].
  exists before, part, more, first, others. repeat split. exact Hinner.
Qed.

End ExtractFacts.

(** [extract_sql_from_response] returns on every response, and what it
    returns neither starts nor ends with white space. *)
Theorem extract_sql_from_response_stripped
    (u : UnicodeData) (uu : UpperData) (response : str) :
  exists sql,
    extract_sql_from_response u uu response = Ok sql /\
    forall c t, sql = c :: t ->
                isspace c = false /\ isspace (last sql c) = false.
Proof.
  destruct (contains sql_fence response) eqn:H.
  - destruct (extract_fenced u uu response H)
      as (before & part & more & first & others & _ & _ & ->).
    eexists. split; [reflexivity|]. intros c t. apply strip_ends.
  - rewrite (extract_plain u uu response H).
    eexists. split; [reflexivity|]. intros c t. apply strip_ends.
Qed.

(** A response with a [```sql] fence is cut to the fenced text: with no
    backtick before the opening fence or inside the fenced text, and no
    further opening fence after it, the result is the fenced text stripped,
    whether the fence is closed or runs to the end of the response. *)
Theorem extract_sql_from_response_fenced
    (u : UnicodeData) (uu : UpperData) (before body after : str) :
  ~ In backtick before ->
  ~ In backtick body ->
  after = [] \/ (exists rest, after = fence ++ rest) ->
  contains sql_fence after = false ->
  extract_sql_from_response u uu (before ++ sql_fence ++ body ++ after)
  = Ok (strip body).
Proof.
  intros Hbefore Hbody Hafter Hno.
  assert (Hin : contains sql_fence (before ++ sql_fence ++ body ++ after) = true)
    by apply contains_infix.
  destruct (extract_fenced u uu _ Hin)
    as (b & part & more & first & others & Hparts & Hinner & ->).
  rewrite sql_fence_cons in Hparts at 1 2.
  rewrite split_from_first_piece in Hparts by assumption.
  rewrite <- sql_fence_cons in Hparts.
  rewrite split_from_absent in Hparts;
    [|discriminate
     |rewrite sql_fence_cons, contains_skip_prefix by assumption;
      now rewrite <- sql_fence_cons].
  injection Hparts as _ <- _.
  destruct Hafter as [->|(rest & ->)].
  - rewrite split_from_absent in Hinner;
      [|discriminate
       |rewrite fence_cons, contains_skip_prefix by assumption; reflexivity].
    injection Hinner as <- _. now rewrite app_nil_r.
  - rewrite fence_cons in Hinner at 1 2.
    rewrite split_from_first_piece in Hinner by assumption.
    now injection Hinner as <- _.
Qed.

Lemma extract_sql_from_response_fenced_witness :
  extract_sql_from_response ucd_sample {| ud_toupper_full c := [c] |}
    (lit "Here you go: " ++ sql_fence ++ [10%N]
       ++ lit "SELECT name FROM data" ++ [10%N] ++ fence ++ lit " Enjoy!")
  = Ok (lit "SELECT name FROM data").
Proof.
  apply (extract_sql_from_response_fenced ucd_sample
           {| ud_toupper_full c := [c] |}
           (lit "Here you go: ")
           ([10%N] ++ lit "SELECT name FROM data" ++ [10%N])
           (fence ++ lit " Enjoy!")).
  - vm_compute. intuition discriminate.
  - vm_compute. intuition discriminate.
  - right. eexists. reflexivity.
  - reflexivity.
Defined.

(** A response without a [```sql] fence comes back stripped, whether or not
    it mentions [SELECT]; cleaning the result again changes nothing. *)
Theorem extract_sql_from_response_plain
    (u : UnicodeData) (uu : UpperData) (response : str) :
  contains sql_fence response = false ->
  extract_sql_from_response u uu response = Ok (strip response) /\
  bind (extract_sql_from_response u uu response)
    (extract_sql_from_response u uu)
  = extract_sql_from_response u uu response.
Proof.
  intros H. rewrite (extract_plain u uu response H). split; [reflexivity|].
  cbn [bind]. rewrite extract_plain; [now rewrite strip_idempotent|].
  apply not_true_is_false. intros Hc.
  destruct (strip_infix response) as (p & q & Heq).
  rewrite Heq in H. rewrite contains_within in H by exact Hc. discriminate.
Qed.

Lemma extract_sql_from_response_plain_witness :
  extract_sql_from_response ucd_sample {| ud_toupper_full c := [c] |}
    ([32%N; 10%N] ++ lit "select 1" ++ [10%N])
  = Ok (lit "select 1").
Proof.
  apply (extract_sql_from_response_plain ucd_sample
           {| ud_toupper_full c := [c] |}
           ([32%N; 10%N] ++ lit "select 1" ++ [10%N])).
  reflexivity.
Defined.

(** ** Colliding headers *)

Lemma despace_idempotent (c : N) : despace (despace c) = despace c.
Proof.
  unfold despace, space, underscore.
  destruct (N.eqb_spec c 32); [reflexivity|].
  destruct (N.eqb_spec c 32); congruence.
Qed.

Lemma scrub_char_settled (u : UnicodeData) (c : N) :
  scrub_char u (despace (scrub_char u (despace c))) = scrub_char u (despace c).
Proof.
  assert (Hy : scrub_char u (despace c) = despace c
               \/ scrub_char u (despace c) = underscore).
  { unfold scrub_char. destruct (_ || _); [now left|now right]. }
  destruct Hy as [Hy|Hy]; rewrite Hy.
  - rewrite despace_idempotent. exact Hy.
  - reflexivity.
Qed.

(** The sanitiser cannot tell a header from its scrubbed form: writing
    underscores for the spaces of a header, or for all of its characters
    that are neither alphanumeric nor underscores, gives a header with the
    same sanitised name. *)
Theorem clean_column_name_collides (u : UnicodeData) (name : str) :
  clean_column_name u (replace (lit " ") (lit "_") name)
  = clean_column_name u name /\
  clean_column_name u (scrub u name) = clean_column_name u name.
Proof.
  assert (H1 : scrub u (replace (lit " ") (lit "_") name) = scrub u name).
  { rewrite lit_space, lit_underscore, replace_char, !scrub_map.
    f_equal. rewrite map_map. apply map_ext. intros c.
    apply despace_idempotent. }
  assert (H2 : scrub u (scrub u name) = scrub u name).
  { rewrite !scrub_map, !map_map. apply map_ext. intros c.
    apply scrub_char_settled. }
  unfold clean_column_name. now rewrite H1, H2.
Qed.

(** ** The loader and the process state *)

(** A load opens exactly one connection, whether it succeeds or not, hands
    back that connection on success, and leaves the files and every earlier
    connection as they were; when the file cannot be read the error is the
    reader's and the new connection is an empty database. *)
Theorem create_database_from_csv_frame
    (u : UnicodeData) (E : Engine) (w : World E) (path name : str) :
  let load := create_database_from_csv u E w path name in
  files (fst load) = files w /\
  List.length (connections (fst load)) = S (List.length (connections w)) /\
  (forall conn, conn < List.length (connections w) ->
                database E (fst load) conn = database E w conn) /\
  (forall conn, snd load = Ok conn -> conn = List.length (connections w)) /\
  (forall e, read_csv E (files w) path = Raise e ->
             snd load = Raise e /\
             database E (fst load) (List.length (connections w))
             = memory_db E).
Proof.
  intros load. subst load. rewrite create_database_from_csv_steps.
  unfold database.
  destruct (read_csv E (files w) path) as [df|e0].
  - destruct (comprehension (clean_column_name u) (df_columns df))
      as [cols|e1]; cbn [fst snd files connections];
      rewrite length_app, Nat.add_comm;
      (split; [reflexivity|]); (split; [reflexivity|]);
      (split; [intros conn Hlt; now apply app_nth1|]);
      (split; [|discriminate]).
    + destruct (snd (to_sql E (set_columns df cols) name (memory_db E)));
        [intros conn H; now injection H as <-|discriminate].
    + discriminate.
  - cbn [fst snd files connections]. rewrite length_app, Nat.add_comm.
    split; [reflexivity|]. split; [reflexivity|].
    split; [intros conn Hlt; now apply app_nth1|].
    split; [discriminate|].
    intros e He. injection He as <-. split; [reflexivity|apply nth_fresh].
Qed.

(** ** What [execute_query] returns and raises *)

Lemma first_success_sound (E : Engine) (l : list str) :
  forall (conn c' : Conn E) (df : DataFrame),
  first_success E conn l = (c', Some df) ->
  exists q c0, In q l /\ read_sql_query E q c0 = (c', Ok df).
Proof.
  induction l as [|q l IH]; intros conn c' df; simpl; [discriminate|].
  destruct (read_sql_query E q conn) as [c1 [df1|e]] eqn:Hrun.
  - intros H. injection H as <- <-. exists q, conn. split; [now left|exact Hrun].
  - intros H. destruct (IH _ _ _ H) as (q' & c0 & Hin & Hq).
    exists q', c0. split; [now right|exact Hq].
Qed.

(** A frame returned by [execute_query] is what the engine returned for the
    query itself or, after a column-resolution failure, for one of its
    repair rewrites; the connection is left in the state of that
    execution. *)
Theorem execute_query_returns_engine_result
    (u : UnicodeData) (E : Engine) (conn c' : Conn E) (query : str)
    (df : DataFrame) :
  execute_query u E conn query = (c', Ok df) ->
  read_sql_query E query conn = (c', Ok df) \/
  exists c1 e q c0,
    read_sql_query E query conn = (c1, Raise e) /\
    contains (lit "no such column") (lower u (exc_text e)) = true /\
    In q (repair_candidates u query (table_info_data E c1)) /\
    read_sql_query E q c0 = (c', Ok df).
Proof.
  intros H.
  destruct (read_sql_query E query conn) as [c1 [df1|e]] eqn:Hrun.
  - left. unfold execute_query in H. rewrite Hrun in H. exact H.
  - right.
    destruct (contains (lit "no such column") (lower u (exc_text e))) eqn:Hcol.
    + rewrite (execute_query_repair u E conn c1 query e Hrun Hcol) in H.
      destruct (first_success E c1 _) as [c2 [df2|]] eqn:Hfs; [|discriminate].
      injection H as -> ->.
      destruct (first_success_sound E _ _ _ _ Hfs) as (q & c0 & Hin & Hq).
      now exists c1, e, q, c0.
    + rewrite (execute_query_other_error u E conn c1 query e Hrun Hcol) in H.
      discriminate.
Qed.

Lemma execute_query_returns_engine_result_witness :
  read_sql_query MiniSQL.engine (MiniSQL.select (lit "passenger_class"))
    MiniSQL.titanic_db
  = (MiniSQL.titanic_db,
     Ok {| df_columns := [lit "passenger_class"];
           df_data := [[SInt 1]; [SInt 3]; [SInt 2]] |}).
Proof.
  destruct (execute_query_returns_engine_result ucd_sample MiniSQL.engine
              MiniSQL.titanic_db MiniSQL.titanic_db
              (MiniSQL.select (lit "passenger_class"))
              {| df_columns := [lit "passenger_class"];
                 df_data := [[SInt 1]; [SInt 3]; [SInt 2]] |})
    as [H|(c1 & e & q & c0 & H & _)].
  - vm_compute. reflexivity.
  - exact H.
  - vm_compute in H. discriminate.
Defined.

(** Every exception that leaves [execute_query] is made at line 106 from
    the failure of the first execution: the [UnboundLocalError] when that
    failure is not a column-resolution error, the [Query error] message
    otherwise.  Neither the engine's exception nor an [IndexError] of the
    sanitiser gets out as it is. *)
Theorem execute_query_raises_line_106
    (u : UnicodeData) (E : Engine) (conn c' : Conn E) (query : str)
    (x : PyExc) :
  execute_query u E conn query = (c', Raise x) ->
  exists c1 e,
    read_sql_query E query conn = (c1, Raise e) /\
    ((contains (lit "no such column") (lower u (exc_text e)) = false /\
      x = UnboundLocalError (lit "actual_columns") /\ c' = c1) \/
     (contains (lit "no such column") (lower u (exc_text e)) = true /\
      x = reraise e (Some (table_info_data E c1)) /\
      first_success E c1 (repair_candidates u query (table_info_data E c1))
      = (c', None))).
Proof.
  intros H.
  destruct (read_sql_query E query conn) as [c1 [df1|e]] eqn:Hrun.
  - unfold execute_query in H. rewrite Hrun in H. discriminate.
  - exists c1, e. split; [reflexivity|].
    destruct (contains (lit "no such column") (lower u (exc_text e))) eqn:Hcol.
    + right. split; [reflexivity|].
      rewrite (execute_query_repair u E conn c1 query e Hrun Hcol) in H.
      destruct (first_success E c1 _) as [c2 [df2|]]; [discriminate|].
      injection H as -> <-. split; reflexivity.
    + left. split; [reflexivity|].
      rewrite (execute_query_other_error u E conn c1 query e Hrun Hcol) in H.
      injection H as <- <-. split; reflexivity.
Qed.

Lemma execute_query_raises_line_106_witness :
  exists c1 e,
    read_sql_query MiniSQL.engine (MiniSQL.select (lit "fare"))
      MiniSQL.titanic_db = (c1, Raise e).
Proof.
  destruct (execute_query_raises_line_106 ucd_sample MiniSQL.engine
              MiniSQL.titanic_db MiniSQL.titanic_db
              (MiniSQL.select (lit "fare"))
              (reraise
                 (MiniSQL.database_error (MiniSQL.select (lit "fare"))
                    (lit "no such column: fare"))
                 (Some [lit "passenger_class"])))
    as (c1 & e & H & _).
  - vm_compute. reflexivity.
  - exists c1, e. exact H.
Defined.

Lemma replace_absent (h : N) (old' new s : str) :
  ~ In h s -> replace (h :: old') new s = s.
Proof.
  unfold replace. induction s as [|c t IH]; intros Hs; [reflexivity|].
  cbn [replace_from starts_with].
  destruct (N.eqb_spec h c) as [->|_]; [exfalso; apply Hs; now left|].
  cbn [andb]. rewrite IH; [reflexivity|]. intros H. apply Hs. now right.
Qed.

Lemma repair_candidates_unquoted
    (u : UnicodeData) (query : str) (cols : list str) :
  ~ In dquote query ->
  Forall (fun candidate => candidate = query)
    (repair_candidates u query cols).
Proof.
  intros Hq. unfold repair_candidates, quote_style_candidate,
    space_column_candidates, fuzzy_candidates, quoted.
  constructor; [now apply replace_absent|].
  apply Forall_app. split; apply Forall_forall; intros q Hin;
    apply in_map_iff in Hin as (col & <- & _);
    now apply replace_absent.
Qed.

(** Every repair rewrite replaces a text that begins with a double quote:
    on a query without a double-quote character each repair candidate is
    the query itself, so the repair only re-executes the same text. *)
Theorem repair_candidates_need_quotes
    (u : UnicodeData) (query : str) (cols : list str) :
  ~ In dquote query ->
  Forall (fun candidate => candidate = query)
    (repair_candidates u query cols) /\
  Forall (fun candidate => candidate = query)
    (map (fun col => replace (quoted col) (sanitize u col) query) cols) /\
  replace [dquote] [backtick] query = query.
Proof.
  intros Hq. split; [now apply repair_candidates_unquoted|]. split.
  - apply Forall_forall. intros q Hin.
    apply in_map_iff in Hin as (col & <- & _). now apply replace_absent.
  - now apply replace_absent.
Qed.

Lemma repair_candidates_need_quotes_witness :
  Forall (fun candidate => candidate = MiniSQL.select (lit "fare"))
    (repair_candidates ucd_sample (MiniSQL.select (lit "fare"))
       [lit "Raw Predicted Value"]).
Proof.
  apply (proj1 (repair_candidates_need_quotes ucd_sample
                  (MiniSQL.select (lit "fare")) [lit "Raw Predicted Value"]
                  ltac:(vm_compute; intuition discriminate))).
Defined.

(** ** The mapping the application displays *)

Lemma dict_set_fresh (d : list (str * str)) (k v : str) :
  ~ In k (map fst d) -> dict_set d k v = d ++ [(k, v)].
Proof.
  induction d as [|[k' v'] d IH]; intros Hk; [reflexivity|]. simpl.
  destruct (eqb_str k' k) eqn:Heq.
  - apply eqb_str_eq in Heq. exfalso. apply Hk. now left.
  - rewrite IH; [reflexivity|]. intros H. apply Hk. now right.
Qed.

Lemma dict_comprehension_distinct (pairs : list (str * str)) :
  NoDup (map fst pairs) -> dict_comprehension pairs = pairs.
Proof.
  unfold dict_comprehension.
  assert (H : forall d, NoDup (map fst (d ++ pairs)) ->
                        fold_left (fun d kv => dict_set d (fst kv) (snd kv))
                          pairs d = d ++ pairs).
  { induction pairs as [|[k v] l IH]; intros d Hnd; simpl.
    - now rewrite app_nil_r.
    - rewrite dict_set_fresh.
      + rewrite IH; rewrite <- app_assoc; [reflexivity|exact Hnd].
      + rewrite map_app in Hnd. simpl in Hnd.
        apply NoDup_remove_2 in Hnd. intros H. apply Hnd.
        apply in_or_app. now left. }
  apply (H []).
Qed.

Lemma comprehension_length {A B} (f : A -> Result B) (l : list A)
    (ys : list B) :
  comprehension f l = Ok ys -> List.length ys = List.length l.
Proof.
  intros H. apply comprehension_ok in H.
  induction H; simpl; congruence.
Qed.

Lemma map_fst_combine {A B} (l : list A) (l' : list B) :
  List.length l' = List.length l -> map fst (combine l l') = l.
Proof.
  revert l'. induction l as [|a l IH]; intros [|b l'] H; simpl in *;
    try discriminate; [reflexivity|].
  f_equal. apply IH. congruence.
Qed.

(** When the headers of a file are pairwise distinct, the mapping the
    application shows lists them in file order, each with the sanitised
    name the loader gives the column: it is the loader's column mapping for
    that file. *)
Theorem processed_column_mapping_is_loaded
    (u : UnicodeData) (E : Engine) (w : World E) (path : str)
    (df : DataFrame) :
  read_csv E (files w) path = Ok df ->
  NoDup (df_columns df) ->
  processed_column_mapping u df = column_mapping u E w path /\
  forall mapping,
    processed_column_mapping u df = Ok mapping ->
    map fst mapping = df_columns df /\
    Forall (fun kv => clean_column_name u (fst kv) = Ok (snd kv)) mapping.
Proof.
  intros Hread Hnd. unfold processed_column_mapping, column_mapping.
  rewrite Hread. cbn [bind].
  destruct (comprehension (clean_column_name u) (df_columns df))
    as [processed|e] eqn:Hc; cbn [bind]; [|split; [reflexivity|discriminate]].
  pose proof (comprehension_length _ _ _ Hc) as Hlen.
  rewrite dict_comprehension_distinct
    by (rewrite map_fst_combine; assumption).
  split; [reflexivity|].
  intros mapping H. injection H as <-.
  split; [now apply map_fst_combine|].
  apply comprehension_ok in Hc. clear Hlen Hnd Hread.
  induction Hc; simpl; constructor; assumption.
Qed.

Lemma processed_column_mapping_is_loaded_witness :
  processed_column_mapping ucd_sample MiniSQL.titanic_csv
  = Ok [(lit "Passenger Class", lit "passenger_class")].
Proof.
  rewrite (proj1 (processed_column_mapping_is_loaded ucd_sample
                    MiniSQL.engine MiniSQL.titanic_world (lit "titanic.csv")
                    MiniSQL.titanic_csv eq_refl
                    ltac:(repeat constructor; intros []))).
  reflexivity.
Defined.

(** ** Consequences for whole runs *)

Lemma first_success_all_fail (E : Engine) (conn : Conn E) (query : str)
    (e : PyExc) (l : list str) :
  read_sql_query E query conn = (conn, Raise e) ->
  Forall (fun candidate => candidate = query) l ->
  first_success E conn l = (conn, None).
Proof.
  intros Hrun. induction 1 as [|q l -> _ IH]; simpl; [reflexivity|].
  now rewrite Hrun.
Qed.

(** A query without a double-quote character whose column-resolution
    failure leaves the relation as it is cannot be repaired: the same text
    fails again at every attempt and the final failure is raised. *)
Theorem unquoted_query_not_repaired
    (u : UnicodeData) (E : Engine) (conn : Conn E) (query : str)
    (e : PyExc) :
  ~ In dquote query ->
  read_sql_query E query conn = (conn, Raise e) ->
  contains (lit "no such column") (lower u (exc_text e)) = true ->
  execute_query u E conn query
  = (conn, Raise (reraise e (Some (table_info_data E conn)))).
Proof.
  intros Hq Hrun Hcol.
  rewrite (execute_query_repair u E conn conn query e Hrun Hcol).
  rewrite (first_success_all_fail E conn query e); [reflexivity|exact Hrun|].
  now apply repair_candidates_unquoted.
Qed.

Lemma unquoted_query_not_repaired_witness :
  snd (execute_query ucd_sample MiniSQL.engine MiniSQL.predictions_db
         (MiniSQL.select (lit "raw_predicted_value")))
  = Raise (reraise
             (MiniSQL.database_error
                (MiniSQL.select (lit "raw_predicted_value"))
                (lit "no such column: raw_predicted_value"))
             (Some [lit "id"; lit "Raw Predicted Value"])).
Proof.
  rewrite (unquoted_query_not_repaired ucd_sample MiniSQL.engine
             MiniSQL.predictions_db
             (MiniSQL.select (lit "raw_predicted_value"))
             (MiniSQL.database_error
                (MiniSQL.select (lit "raw_predicted_value"))
                (lit "no such column: raw_predicted_value"))).
  - reflexivity.
  - vm_compute. intuition discriminate.
  - vm_compute. reflexivity.
  - vm_compute. reflexivity.
Defined.

Lemma comprehension_total {A B} (f : A -> Result B) (g : A -> B)
    (l : list A) :
  Forall (fun x => f x = Ok (g x)) l -> comprehension f l = Ok (map g l).
Proof.
  induction 1 as [|x l Hx _ IH]; simpl; [reflexivity|].
  now rewrite Hx, IH.
Qed.

(** When every header of the file is a non-empty ASCII string, the load
    does not fail in the sanitiser: it fails only if the reader or the
    write fails, and on success every stored column name of [data] is an
    identifier over [[a-z0-9_]] that does not start with a digit. *)
Theorem loaded_columns_identifiers
    (u : UnicodeData) (E : Engine) (w : World E) (path : str)
    (df : DataFrame) :
  reports_stored_columns E ->
  read_csv E (files w) path = Ok df ->
  Forall (fun header => header <> [] /\ all_ascii header = true)
    (df_columns df) ->
  let load := create_database_from_csv u E w path (lit "data") in
  let written := to_sql E (set_columns df (map (sanitize u) (df_columns df)))
                   (lit "data") (memory_db E) in
  (forall e, snd load = Raise e -> snd written = Raise e) /\
  (forall conn,
      snd load = Ok conn ->
      table_info_data E (database E (fst load) conn)
      = map (sanitize u) (df_columns df) /\
      Forall (fun col => matches_identifier col = true
                         /\ starts_with_digit col = false)
        (table_info_data E (database E (fst load) conn))).
Proof.
  intros HE Hread Hheaders load written. subst load written.
  rewrite create_database_from_csv_steps, Hread.
  rewrite (comprehension_total (clean_column_name u) (sanitize u))
    by (eapply Forall_impl; [|exact Hheaders];
        intros h [Hne _]; now apply clean_column_name_sanitize).
  cbn [fst snd].
  destruct (to_sql E _ (lit "data") (memory_db E)) as [db [[]|e]] eqn:Hsql;
    cbn [fst snd].
  - split; [discriminate|]. intros conn H. injection H as <-.
    unfold database. cbn [connections]. rewrite nth_fresh.
    rewrite (HE _ _ _ Hsql). cbn [df_columns set_columns].
    split; [reflexivity|].
    apply Forall_forall. intros col Hin.
    apply in_map_iff in Hin as (h & <- & Hh).
    rewrite Forall_forall in Hheaders. destruct (Hheaders h Hh) as [Hne Ha].
    destruct (clean_column_name_ascii u h Hne Ha) as (Hout & Hm & Hd).
    rewrite clean_column_name_sanitize in Hout by assumption.
    injection Hout as Hout. rewrite Hout. now split.
  - split; [intros e' H; now injection H as <-|discriminate].
Qed.

Lemma loaded_columns_identifiers_witness :
  table_info_data MiniSQL.engine MiniSQL.titanic_db
  = [lit "passenger_class"]
  /\ Forall (fun col => matches_identifier col = true
                        /\ starts_with_digit col = false)
       (table_info_data MiniSQL.engine MiniSQL.titanic_db).
Proof.
  apply (proj2 (loaded_columns_identifiers ucd_sample MiniSQL.engine
                  MiniSQL.titanic_world (lit "titanic.csv")
                  MiniSQL.titanic_csv minisql_reports_stored_columns eq_refl
                  ltac:(repeat constructor; discriminate)) 0).
  vm_compute. reflexivity.
Defined.

Lemma create_database_from_csv_frame_witness :
  database MiniSQL.engine
    (fst (create_database_from_csv ucd_sample MiniSQL.engine
            (Build_World (E := MiniSQL.engine) MiniSQL.titanic_files
               [MiniSQL.predictions_db])
            (lit "titanic.csv") (lit "data"))) 0
  = MiniSQL.predictions_db.
Proof.
  apply (proj1 (proj2 (proj2
           (create_database_from_csv_frame ucd_sample MiniSQL.engine
              (Build_World (E := MiniSQL.engine) MiniSQL.titanic_files
                 [MiniSQL.predictions_db])
              (lit "titanic.csv") (lit "data"))))).
  simpl. lia.
Defined.
